(** * Job lifecycle of the field-service backend

    A shallow embedding of [src/config/constants.js],
    [src/services/JobService.js] and the job handlers of
    [src/routes/jobs.js].  The MongoDB collections are finite maps that are
    passed through every operation; each Mongoose call that the source
    awaits is one atomic step on those maps. *)

From Stdlib Require Import String ZArith List.
From stdpp Require Import gmap strings list.

Open Scope string_scope.

(** ** constants.js *)

Inductive Role := ADMIN | OFFICE_MANAGER | TECHNICIAN.

Inductive Status :=
  | TENTATIVE | CONFIRMED | ASSIGNED | DISPATCHED
  | IN_PROGRESS | COMPLETED | BILLED.

#[global] Instance Role_eq_dec : EqDecision Role.
Proof. solve_decision. Defined.

#[global] Instance Status_eq_dec : EqDecision Status.
Proof. solve_decision. Defined.

(** The string each key of [ROLES] and [JOB_STATUS] stands for. *)
Definition role_name (r : Role) : string :=
  match r with
  | ADMIN => "ADMIN"
  | OFFICE_MANAGER => "OFFICE_MANAGER"
  | TECHNICIAN => "TECHNICIAN"
  end.

Definition status_name (s : Status) : string :=
  match s with
  | TENTATIVE => "TENTATIVE"
  | CONFIRMED => "CONFIRMED"
  | ASSIGNED => "ASSIGNED"
  | DISPATCHED => "DISPATCHED"
  | IN_PROGRESS => "IN_PROGRESS"
  | COMPLETED => "COMPLETED"
  | BILLED => "BILLED"
  end.

(** A JS object literal: keys in insertion order. *)
Definition Obj (K V : Type) : Type := list (K * V).

Fixpoint obj_get {K V} `{EqDecision K} (o : Obj K V) (k : K) : option V :=
  match o with
  | [] => None
  | (k', v) :: o' => if decide (k' = k) then Some v else obj_get o' k
  end.

Definition obj_keys {K V} (o : Obj K V) : list K := map fst o.

(** [STATUS_TRANSITIONS]: current status -> { next status: [allowed roles] }. *)
Definition STATUS_TRANSITIONS : Obj Status (Obj Status (list Role)) :=
  [ (TENTATIVE,   [ (CONFIRMED,   [ADMIN]) ]);
    (CONFIRMED,   [ (ASSIGNED,    [ADMIN]) ]);
    (ASSIGNED,    [ (DISPATCHED,  [OFFICE_MANAGER]) ]);
    (DISPATCHED,  [ (IN_PROGRESS, [TECHNICIAN]) ]);
    (IN_PROGRESS, [ (COMPLETED,   [TECHNICIAN]) ]);
    (COMPLETED,   [ (BILLED,      [OFFICE_MANAGER]) ]);
    (BILLED,      [ ]) ].

(** ** JobService.validateTransition *)

(** [Array.prototype.join(', ')]. *)
Definition join (l : list string) : string := String.concat ", " l.

(** [Array.prototype.includes]. *)
Definition includes {A} `{EqDecision A} (l : list A) (x : A) : bool :=
  bool_decide (x ∈ l).

Definition msg_already : string := "Job is already in this status".

Definition msg_invalid (cur new : Status) (valid : list Status) : string :=
  "Invalid transition from " +:+ status_name cur +:+ " to " +:+ status_name new
  +:+ ". Valid: "
  +:+ (if valid is [] then "none (terminal state)"
       else join (map status_name valid)).

Definition msg_role (role : Role) (cur new : Status) (roles : list Role) : string :=
  "Role " +:+ role_name role +:+ " cannot move job from " +:+ status_name cur
  +:+ " to " +:+ status_name new +:+ ". Allowed: " +:+ join (map role_name roles).

(** Returns the violation text, or [None] for JS [null] (no error). *)
Definition validateTransition (currentStatus newStatus : Status) (role : Role)
  : option string :=
  if decide (currentStatus = newStatus) then Some msg_already
  else
    let allowed := obj_get STATUS_TRANSITIONS currentStatus in
    match allowed ≫= (λ a, obj_get a newStatus) with
    | None =>
        let valid := match allowed with Some a => obj_keys a | None => [] end in
        Some (msg_invalid currentStatus newStatus valid)
    | Some roles =>
        if includes roles role then None
        else Some (msg_role role currentStatus newStatus roles)
    end.

(** *** The table of section 4.1 of the specification

    Written from the specification's rows, to be compared with
    [STATUS_TRANSITIONS]. *)
Definition spec_table : list (Status * Status * list Role) :=
  [ (TENTATIVE,   CONFIRMED,   [ADMIN]);
    (CONFIRMED,   ASSIGNED,    [ADMIN]);
    (ASSIGNED,    DISPATCHED,  [OFFICE_MANAGER]);
    (DISPATCHED,  IN_PROGRESS, [TECHNICIAN]);
    (IN_PROGRESS, COMPLETED,   [TECHNICIAN]);
    (COMPLETED,   BILLED,      [OFFICE_MANAGER]) ].

Definition spec_roles (cur tgt : Status) : option (list Role) :=
  snd <$> head (filter (λ row, row.1.1 = cur ∧ row.1.2 = tgt) spec_table).

Definition spec_targets (cur : Status) : list Status :=
  (λ row, row.1.2) <$> filter (λ row, row.1.1 = cur) spec_table.

Definition spec_allows (cur tgt : Status) (role : Role) : Prop :=
  ∃ roles, (cur, tgt, roles) ∈ spec_table ∧ role ∈ roles.

(** ** models/Job.js and the collections *)

Abbreviation ObjectId := nat.
(** A [Date], as milliseconds since the epoch. *)
Abbreviation Date := Z.

(** The fields of a user document that the job code reads. *)
Record User := {
  user_id : ObjectId;
  user_name : string;
  user_role : Role;
}.

(** [statusHistorySchema]. *)
Record HistoryEntry := {
  fromStatus : option Status;
  toStatus : Status;
  changedBy : ObjectId;
  changedAt : Date;
  notes : string;
}.

(** [jobSchema]; an optional path that is not set is [None].  The setters of
    the schema ([trim], [lowercase]) only normalise the text of descriptive
    paths and of notes and are not applied here; [populate] only changes how
    a returned job shows its references, which stay ids here. *)
Record Job := {
  title : string;
  description : option string;
  customerName : string;
  customerPhone : option string;
  customerEmail : option string;
  address : option string;
  scheduledDate : option Date;
  status : Status;
  assignedTechnician : option ObjectId;
  createdBy : ObjectId;
  statusHistory : list HistoryEntry;
  estimatedCost : option N;
  actualCost : option N;
  completedAt : option Date;
  billedAt : option Date;
  job_notes : option string;
}.

(** An object whose keys are paths of [jobSchema], such as a request body or
    a [$set] document; a key that is absent is [None]. *)
Record JobData := {
  d_title : option string;
  d_description : option string;
  d_customerName : option string;
  d_customerPhone : option string;
  d_customerEmail : option string;
  d_address : option string;
  d_scheduledDate : option Date;
  d_status : option Status;
  d_assignedTechnician : option ObjectId;
  d_createdBy : option ObjectId;
  d_statusHistory : option (list HistoryEntry);
  d_estimatedCost : option N;
  d_actualCost : option N;
  d_completedAt : option Date;
  d_billedAt : option Date;
  d_notes : option string;
}.

Definition no_data : JobData :=
  {| d_title := None; d_description := None; d_customerName := None;
     d_customerPhone := None; d_customerEmail := None; d_address := None;
     d_scheduledDate := None; d_status := None; d_assignedTechnician := None;
     d_createdBy := None; d_statusHistory := None; d_estimatedCost := None;
     d_actualCost := None; d_completedAt := None; d_billedAt := None;
     d_notes := None |}.

(** The two collections. *)
Record Store := {
  jobs : gmap nat Job;
  users : gmap nat User;
}.

Definition with_jobs (db : Store) (js : gmap nat Job) : Store :=
  {| jobs := js; users := users db |}.

(** An update document: [{ $set, $push: { statusHistory } }]. *)
Record UpdateDoc := {
  upd_set : JobData;
  upd_push : list HistoryEntry;
}.

(** A key that is present replaces the path; an absent key keeps it. *)
Definition set_req {A} (new : option A) (old : A) : A := default old new.
Definition set_opt {A} (new : option A) (old : option A) : option A :=
  match new with Some v => Some v | None => old end.

Definition apply_set (d : JobData) (j : Job) : Job :=
  {| title := set_req (d_title d) (title j);
     description := set_opt (d_description d) (description j);
     customerName := set_req (d_customerName d) (customerName j);
     customerPhone := set_opt (d_customerPhone d) (customerPhone j);
     customerEmail := set_opt (d_customerEmail d) (customerEmail j);
     address := set_opt (d_address d) (address j);
     scheduledDate := set_opt (d_scheduledDate d) (scheduledDate j);
     status := set_req (d_status d) (status j);
     assignedTechnician := set_opt (d_assignedTechnician d) (assignedTechnician j);
     createdBy := set_req (d_createdBy d) (createdBy j);
     statusHistory := set_req (d_statusHistory d) (statusHistory j);
     estimatedCost := set_opt (d_estimatedCost d) (estimatedCost j);
     actualCost := set_opt (d_actualCost d) (actualCost j);
     completedAt := set_opt (d_completedAt d) (completedAt j);
     billedAt := set_opt (d_billedAt d) (billedAt j);
     job_notes := set_opt (d_notes d) (job_notes j) |}.

Definition apply_push (es : list HistoryEntry) (j : Job) : Job :=
  {| title := title j; description := description j;
     customerName := customerName j; customerPhone := customerPhone j;
     customerEmail := customerEmail j; address := address j;
     scheduledDate := scheduledDate j; status := status j;
     assignedTechnician := assignedTechnician j; createdBy := createdBy j;
     statusHistory := statusHistory j ++ es;
     estimatedCost := estimatedCost j; actualCost := actualCost j;
     completedAt := completedAt j; billedAt := billedAt j;
     job_notes := job_notes j |}.

Definition apply_update (u : UpdateDoc) (j : Job) : Job :=
  apply_push (upd_push u) (apply_set (upd_set u) j).

(** [Job.findOneAndUpdate({ _id, status }, update, { new: true })]: one
    atomic step of the collection; [None] is the [null] it returns when no
    document matches the filter. *)
Definition findOneAndUpdate (db : Store) (jobId : ObjectId) (expected : Status)
    (u : UpdateDoc) : Store * option Job :=
  match jobs db !! jobId with
  | Some j =>
      if decide (status j = expected)
      then let j' := apply_update u j in
           (with_jobs db (<[jobId := j']> (jobs db)), Some j')
      else (db, None)
  | None => (db, None)
  end.

(** [Job.findByIdAndUpdate(jobId, data, { new: true })]: the top-level keys
    of [data] are set; no filter on the status. *)
Definition findByIdAndUpdate (db : Store) (jobId : ObjectId) (d : JobData)
  : Store * option Job :=
  match jobs db !! jobId with
  | Some j => let j' := apply_set d j in
              (with_jobs db (<[jobId := j']> (jobs db)), Some j')
  | None => (db, None)
  end.

(** [doc.save()] of a loaded document whose modified paths are [u]: the
    changes are written to the stored document with that [_id], whatever it
    holds by then; [None] when the document is gone (save rejects). *)
Definition save (db : Store) (jobId : ObjectId) (u : UpdateDoc) : option Store :=
  match jobs db !! jobId with
  | Some j => Some (with_jobs db (<[jobId := apply_update u j]> (jobs db)))
  | None => None
  end.

(** ** Strings of JS *)

Definition is_space (a : Ascii.ascii) : bool :=
  let n := Ascii.nat_of_ascii a in
  bool_decide (n = 32%nat) || (bool_decide (9 ≤ n)%nat && bool_decide (n ≤ 13)%nat).

Fixpoint trim_start (s : string) : string :=
  match s with
  | String a s' => if is_space a then trim_start s' else s
  | EmptyString => EmptyString
  end.

Fixpoint rev_string (acc s : string) : string :=
  match s with
  | String a s' => rev_string (String a acc) s'
  | EmptyString => acc
  end.

(** [String.prototype.trim], on the ASCII white space. *)
Definition trim (s : string) : string :=
  rev_string EmptyString (trim_start (rev_string EmptyString (trim_start s))).

(** [s || d] for a string that may be undefined. *)
Definition or_else (s : option string) (d : string) : string :=
  match s with
  | Some (String a r) => String a r
  | _ => d
  end.

(** [!notes || !notes.trim()]. *)
Definition blank (notes : option string) : bool :=
  match notes with
  | None => true
  | Some s => bool_decide (trim s = EmptyString)
  end.

Definition quote : string := String (Ascii.ascii_of_nat 34) EmptyString.

(** ** JobService *)

(** What a service function resolves to: [{ data }] or [{ error, status }]. *)
Inductive Result :=
  | Data (data : Job)
  | Error (error : string) (code : nat).

Definition msg_not_found : string := "Job not found".
Definition msg_dispatch_notes : string :=
  "Notes are required when dispatching a job to a technician".
Definition msg_not_assigned : string := "You are not assigned to this job".
Definition msg_conflict : string :=
  "Conflict: job status was changed by another request. Please refresh and retry.".

(** [createJob]: [Job.create] rejects when a required path is missing
    ([None]); the new [_id] is one no stored job has. *)
Definition createJob (db : Store) (data : JobData) (userId : ObjectId) (now : Date)
  : option (Store * ObjectId * Job) :=
  match d_title data, d_customerName data with
  | Some t, Some c =>
      let job :=
        {| title := t; description := d_description data;
           customerName := c; customerPhone := d_customerPhone data;
           customerEmail := d_customerEmail data; address := d_address data;
           scheduledDate := d_scheduledDate data;
           status := TENTATIVE; assignedTechnician := None;
           createdBy := userId;
           statusHistory :=
             [ {| fromStatus := None; toStatus := TENTATIVE;
                  changedBy := userId; changedAt := now;
                  notes := "Job created" |} ];
           estimatedCost := d_estimatedCost data; actualCost := None;
           completedAt := None; billedAt := None;
           job_notes := d_notes data |} in
      let jobId := fresh (dom (jobs db)) in
      Some (with_jobs db (<[jobId := job]> (jobs db)), jobId, job)
  | _, _ => None
  end.

(** Steps 2 to 4 of [transitionStatus], on the job as it was read: the
    error to return, or the filter status and update of the atomic write. *)
Definition transition_prepare (job : Job) (newStatus : Status) (user : User)
    (notes : option string) (now : Date) : Result + (Status * UpdateDoc) :=
  let currentStatus := status job in
  match validateTransition currentStatus newStatus (user_role user) with
  | Some err => inl (Error err 400)
  | None =>
      if bool_decide (newStatus = DISPATCHED) && blank notes
      then inl (Error msg_dispatch_notes 400)
      else if bool_decide (user_role user = TECHNICIAN)
                && negb (bool_decide (assignedTechnician job = Some (user_id user)))
      then inl (Error msg_not_assigned 403)
      else
        let set :=
          {| d_title := None; d_description := None; d_customerName := None;
             d_customerPhone := None; d_customerEmail := None; d_address := None;
             d_scheduledDate := None; d_status := Some newStatus;
             d_assignedTechnician := None; d_createdBy := None;
             d_statusHistory := None; d_estimatedCost := None;
             d_actualCost := None;
             d_completedAt :=
               if decide (newStatus = COMPLETED) then Some now else None;
             d_billedAt :=
               if decide (newStatus = BILLED) then Some now else None;
             d_notes := None |} in
        let historyEntry :=
          {| fromStatus := Some currentStatus; toStatus := newStatus;
             changedBy := user_id user; changedAt := now;
             notes := or_else notes
                        ("Status changed from " +:+ status_name currentStatus
                         +:+ " to " +:+ status_name newStatus) |} in
        inr (currentStatus, {| upd_set := set; upd_push := [historyEntry] |})
  end.

(** Step 5 of [transitionStatus]: the conditional write and its outcome. *)
Definition transition_commit (db : Store) (jobId : ObjectId)
    (w : Status * UpdateDoc) : Store * Result :=
  match findOneAndUpdate db jobId (fst w) (snd w) with
  | (db', Some updated) => (db', Data updated)
  | (db', None) => (db', Error msg_conflict 409)
  end.

Definition transitionStatus (db : Store) (jobId : ObjectId) (newStatus : Status)
    (user : User) (notes : option string) (now : Date) : Store * Result :=
  match jobs db !! jobId with
  | None => (db, Error msg_not_found 404)
  | Some job =>
      match transition_prepare job newStatus user notes now with
      | inl err => (db, err)
      | inr w => transition_commit db jobId w
      end
  end.

(** Steps 1 and 2 of [assignTechnician]: the error to return, or the update
    of the atomic write. *)
Definition assign_prepare (db : Store) (technicianId : ObjectId) (user : User)
    (notes : option string) (now : Date) : Result + UpdateDoc :=
  match users db !! technicianId with
  | None => inl (Error "Technician not found" 404)
  | Some technician =>
      if negb (bool_decide (user_role technician = TECHNICIAN))
      then inl (Error "User is not a technician" 400)
      else
        match validateTransition CONFIRMED ASSIGNED (user_role user) with
        | Some err => inl (Error err 400)
        | None =>
            let historyEntry :=
              {| fromStatus := Some CONFIRMED; toStatus := ASSIGNED;
                 changedBy := user_id user; changedAt := now;
                 notes := or_else notes
                            ("Assigned to " +:+ user_name technician) |} in
            let set :=
              {| d_title := None; d_description := None; d_customerName := None;
                 d_customerPhone := None; d_customerEmail := None;
                 d_address := None; d_scheduledDate := None;
                 d_status := Some ASSIGNED;
                 d_assignedTechnician := Some technicianId;
                 d_createdBy := None; d_statusHistory := None;
                 d_estimatedCost := None; d_actualCost := None;
                 d_completedAt := None; d_billedAt := None; d_notes := None |} in
            inr {| upd_set := set; upd_push := [historyEntry] |}
        end
  end.

Definition msg_must_be_confirmed (current : Status) : string :=
  "Job must be CONFIRMED to assign. Current status: " +:+ status_name current.

(** The branch [if (!updated)] of [assignTechnician]:
    [Job.findById(jobId).select('status').lean()] on the collection as it is
    when the lookup runs, and the error composed from it. *)
Definition assign_diagnose (db : Store) (jobId : ObjectId) : Result :=
  match jobs db !! jobId with
  | None => Error msg_not_found 404
  | Some current => Error (msg_must_be_confirmed (status current)) 400
  end.

Definition assignTechnician (db : Store) (jobId technicianId : ObjectId)
    (user : User) (notes : option string) (now : Date) : Store * Result :=
  match assign_prepare db technicianId user notes now with
  | inl err => (db, err)
  | inr u =>
      match findOneAndUpdate db jobId CONFIRMED u with
      | (db', Some updated) => (db', Data updated)
      | (db', None) => (db', assign_diagnose db' jobId)
      end
  end.

(** [const { status, statusHistory, assignedTechnician, createdBy,
    ...safeData } = data]. *)
Definition safeData (data : JobData) : JobData :=
  {| d_title := d_title data; d_description := d_description data;
     d_customerName := d_customerName data;
     d_customerPhone := d_customerPhone data;
     d_customerEmail := d_customerEmail data; d_address := d_address data;
     d_scheduledDate := d_scheduledDate data;
     d_status := None; d_assignedTechnician := None; d_createdBy := None;
     d_statusHistory := None;
     d_estimatedCost := d_estimatedCost data;
     d_actualCost := d_actualCost data;
     d_completedAt := d_completedAt data; d_billedAt := d_billedAt data;
     d_notes := d_notes data |}.

(** [runValidators] can only make the update reject, which writes
    nothing; the rejection is not modelled. *)
Definition updateJobDetails (db : Store) (jobId : ObjectId) (data : JobData)
  : Store * Result :=
  match findByIdAndUpdate db jobId (safeData data) with
  | (db', Some job) => (db', Data job)
  | (db', None) => (db', Error msg_not_found 404)
  end.

(** ** routes/jobs.js

    The handlers below are the functions given to the router after the
    [authenticate] and [authorize] middleware; [errors] is
    [validationResult(req).array()].  The notification and broadcast calls
    that follow a successful write do not touch the collections. *)

(** What a handler sends: [res.status(code).json(...)]. *)
Inductive Response :=
  | SendData (code : nat) (data : Job) (message : option string)
  | SendMessage (code : nat) (message : string)
  | SendError (code : nat) (error : string)
  | SendErrors (code : nat) (errors : list string).

(** The [success] field of the body. *)
Definition success (r : Response) : bool :=
  match r with
  | SendData _ _ _ | SendMessage _ _ => true
  | SendError _ _ | SendErrors _ _ => false
  end.

Definition http_code (r : Response) : nat :=
  match r with
  | SendData c _ _ | SendMessage c _ | SendError c _ | SendErrors c _ => c
  end.

(** PATCH /api/jobs/:id/status *)
Definition status_handler (db : Store) (jobId : ObjectId) (newStatus : Status)
    (user : User) (notes : option string) (now : Date) (errors : list string)
  : Store * Response :=
  match errors with
  | _ :: _ => (db, SendErrors 400 errors)
  | [] =>
      match transitionStatus db jobId newStatus user notes now with
      | (db', Error e c) => (db', SendError c e)
      | (db', Data j) =>
          (db', SendData 200 j
                  (Some ("Status updated to " +:+ status_name newStatus)))
      end
  end.

(** PATCH /api/jobs/:id/assign *)
Definition assign_handler (db : Store) (jobId technicianId : ObjectId)
    (user : User) (notes : option string) (now : Date) (errors : list string)
  : Store * Response :=
  match errors with
  | _ :: _ => (db, SendErrors 400 errors)
  | [] =>
      match assignTechnician db jobId technicianId user notes now with
      | (db', Error e c) => (db', SendError c e)
      | (db', Data j) => (db', SendData 200 j (Some "Technician assigned"))
      end
  end.

Definition reassignableStatuses : list Status :=
  [ASSIGNED; DISPATCHED; IN_PROGRESS].

Definition msg_cannot_reassign (s : Status) : string :=
  "Cannot reassign a job in " +:+ status_name s
  +:+ " status. Job must be in ASSIGNED, DISPATCHED, or IN_PROGRESS.".

(** [x?.name || d] for a user lookup that may have found nothing. *)
Definition name_or (u : option User) (d : string) : string :=
  or_else (user_name <$> u) d.

(** A loaded job document with the changes made to it in memory and not yet
    saved, and the name put in the reply. *)
Record Reassignment := {
  ra_document : Job;
  ra_changes : UpdateDoc;
  ra_newTechName : string;
}.

(** PATCH /api/jobs/:id/reassign, up to [job.save()]: the reply to send at
    once, or the document as changed in memory. *)
Definition reassign_load (db : Store) (jobId technicianId : ObjectId)
    (user : User) (notes : option string) (now : Date) (errors : list string)
  : Response + Reassignment :=
  match errors with
  | _ :: _ => inl (SendErrors 400 errors)
  | [] =>
      match jobs db !! jobId with
      | None => inl (SendError 404 msg_not_found)
      | Some job =>
          if negb (includes reassignableStatuses (status job))
          then inl (SendError 400 (msg_cannot_reassign (status job)))
          else
            let oldTechName :=
              name_or (assignedTechnician job ≫= (λ t, users db !! t))
                      "previous technician" in
            let previousStatus := status job in
            let newTech := users db !! technicianId in
            let newTechName := name_or newTech "new technician" in
            let set :=
              {| d_title := None; d_description := None;
                 d_customerName := None; d_customerPhone := None;
                 d_customerEmail := None; d_address := None;
                 d_scheduledDate := None;
                 d_status := Some ASSIGNED;
                 d_assignedTechnician := Some technicianId;
                 d_createdBy := None; d_statusHistory := None;
                 d_estimatedCost := None; d_actualCost := None;
                 d_completedAt := None; d_billedAt := None;
                 d_notes := None |} in
            let entry :=
              {| fromStatus := Some previousStatus; toStatus := ASSIGNED;
                 changedBy := user_id user; changedAt := now;
                 notes := or_else notes
                            ("Reassigned from " +:+ oldTechName +:+ " to "
                             +:+ newTechName) |} in
            let changes := {| upd_set := set; upd_push := [entry] |} in
            inr {| ra_document := apply_update changes job;
                   ra_changes := changes;
                   ra_newTechName := newTechName |}
      end
  end.

(** Stands for [error.message] of the rejection of [save]; the handler
    sends whatever text it has, the source does not fix it. *)
Definition msg_save_rejected : string := "No document found".

(** [await job.save()] and the reply. *)
Definition reassign_save (db : Store) (jobId : ObjectId) (r : Reassignment)
  : Store * Response :=
  match save db jobId (ra_changes r) with
  | Some db' =>
      (db', SendData 200 (ra_document r)
              (Some ("Reassigned to " +:+ ra_newTechName r)))
  | None => (db, SendError 500 msg_save_rejected)
  end.

Definition reassign_handler (db : Store) (jobId technicianId : ObjectId)
    (user : User) (notes : option string) (now : Date) (errors : list string)
  : Store * Response :=
  match reassign_load db jobId technicianId user notes now errors with
  | inl reply => (db, reply)
  | inr r => reassign_save db jobId r
  end.

(** DELETE /api/jobs/:id *)
Definition delete_handler (db : Store) (jobId : ObjectId) : Store * Response :=
  match jobs db !! jobId with
  | None => (db, SendError 404 msg_not_found)
  | Some job =>
      if decide (status job = BILLED)
      then (db, SendError 400 "Billed jobs cannot be deleted")
      else (with_jobs db (delete jobId (jobs db)),
            SendMessage 200
              ("Job " +:+ quote +:+ title job +:+ quote +:+ " deleted"))
  end.

(** PUT /api/jobs/:id *)
Definition put_handler (db : Store) (jobId : ObjectId) (body : JobData)
    (errors : list string) : Store * Response :=
  match errors with
  | _ :: _ => (db, SendErrors 400 errors)
  | [] =>
      if bool_decide (status <$> jobs db !! jobId = Some BILLED)
      then (db, SendError 400 "Billed jobs cannot be edited")
      else
        match updateJobDetails db jobId body with
        | (db', Error e c) => (db', SendError c e)
        | (db', Data j) => (db', SendData 200 j None)
        end
  end.

(** ** Requests one after the other *)

Inductive Op :=
  | Transition (jobId : ObjectId) (newStatus : Status) (user : User)
      (notes : option string) (now : Date) (errors : list string)
  | Assign (jobId technicianId : ObjectId) (user : User)
      (notes : option string) (now : Date) (errors : list string)
  | Reassign (jobId technicianId : ObjectId) (user : User)
      (notes : option string) (now : Date) (errors : list string)
  | Edit (jobId : ObjectId) (body : JobData) (errors : list string)
  | Delete (jobId : ObjectId).

Definition exec (op : Op) (db : Store) : Store * Response :=
  match op with
  | Transition jobId newStatus user notes now errors =>
      status_handler db jobId newStatus user notes now errors
  | Assign jobId technicianId user notes now errors =>
      assign_handler db jobId technicianId user notes now errors
  | Reassign jobId technicianId user notes now errors =>
      reassign_handler db jobId technicianId user notes now errors
  | Edit jobId body errors => put_handler db jobId body errors
  | Delete jobId => delete_handler db jobId
  end.

Definition run_ops (ops : list Op) (db : Store) : Store :=
  foldl (λ db op, fst (exec op db)) db ops.

(** The arguments of one [transitionStatus] call on a given job. *)
Record Call := {
  call_status : Status;
  call_user : User;
  call_notes : option string;
  call_now : Date;
}.

Definition is_data (r : Result) : bool :=
  match r with Data _ => true | Error _ _ => false end.

(** [transitionStatus] called for each of [calls] in turn; also returns how
    many of the calls returned [{ data }]. *)
Fixpoint transitions (db : Store) (jobId : ObjectId) (calls : list Call)
  : Store * nat :=
  match calls with
  | [] => (db, 0)
  | c :: cs =>
      let '(db1, r) :=
        transitionStatus db jobId (call_status c) (call_user c) (call_notes c)
          (call_now c) in
      let '(db2, n) := transitions db1 jobId cs in
      (db2, (if is_data r then 1 else 0) + n)
  end.

(** ** Requests at the same time

    A call of [transitionStatus] awaits twice: [Job.findById], then
    [Job.findOneAndUpdate].  Calls in flight take these steps in any order;
    a schedule lists whose turn it is. *)
Inductive Proc :=
  | Called
  | Read (w : Status * UpdateDoc)
  | Returned (seen : option Status) (r : Result).

Definition step_call (db : Store) (jobId : ObjectId) (c : Call) (p : Proc)
  : Store * Proc :=
  match p with
  | Called =>
      match jobs db !! jobId with
      | None => (db, Returned None (Error msg_not_found 404))
      | Some job =>
          match transition_prepare job (call_status c) (call_user c)
                  (call_notes c) (call_now c) with
          | inl err => (db, Returned (Some (status job)) err)
          | inr w => (db, Read w)
          end
      end
  | Read w =>
      let '(db', r) := transition_commit db jobId w in
      (db', Returned (Some (fst w)) r)
  | Returned _ _ => (db, p)
  end.

Definition step (jobId : ObjectId) (calls : list Call)
    (st : Store * list Proc) (i : nat) : Store * list Proc :=
  match calls !! i, snd st !! i with
  | Some c, Some p =>
      let '(db', p') := step_call (fst st) jobId c p in
      (db', <[i := p']> (snd st))
  | _, _ => st
  end.

Definition run (jobId : ObjectId) (calls : list Call) (sched : list nat)
    (st : Store * list Proc) : Store * list Proc :=
  foldl (step jobId calls) st sched.

(** *** The two phases of a race

    [calls] race on job [jobId], which is [job0] in [db0] when the race
    starts.  Until the first write, every call is about to read or holds
    the write it prepared from [job0]; from the first write on, its author
    [winner] has returned the updated job and the stored job is that one. *)
Definition waiting (calls : list Call) (job0 : Job) (i : nat) (p : Proc) : Prop :=
  p = Called
  ∨ ∃ c w, calls !! i = Some c
           ∧ transition_prepare job0 (call_status c) (call_user c)
               (call_notes c) (call_now c) = inr w
           ∧ p = Read w.

Definition before_write (calls : list Call) (db0 : Store) (job0 : Job)
    (st : Store * list Proc) : Prop :=
  fst st = db0 ∧ ∀ i p, snd st !! i = Some p → waiting calls job0 i p.

Definition after_write (jobId : ObjectId) (calls : list Call) (job0 : Job)
    (T : Status) (st : Store * list Proc) (winner : nat) (u : UpdateDoc) : Prop :=
  (∃ c, calls !! winner = Some c
        ∧ transition_prepare job0 (call_status c) (call_user c)
            (call_notes c) (call_now c) = inr (status job0, u))
  ∧ jobs (fst st) !! jobId = Some (apply_update u job0)
  ∧ snd st !! winner
    = Some (Returned (Some (status job0)) (Data (apply_update u job0)))
  ∧ ∀ i p, i ≠ winner → snd st !! i = Some p →
      waiting calls job0 i p
      ∨ p = Returned (Some (status job0)) (Error msg_conflict 409)
      ∨ ∃ r, p = Returned (Some T) r.

Definition race_inv (jobId : ObjectId) (calls : list Call) (db0 : Store)
    (job0 : Job) (T : Status) (st : Store * list Proc) : Prop :=
  length (snd st) = length calls
  ∧ (before_write calls db0 job0 st
     ∨ ∃ winner u, after_write jobId calls job0 T st winner u).

(** *** The history ledger *)

(** The first record is the creation record, every later record starts from
    the status the record before it ended in, and the last record ends in
    the job's status. *)
Definition ledger_ok (j : Job) : Prop :=
  (∃ e, statusHistory j !! 0 = Some e
        ∧ fromStatus e = None ∧ toStatus e = TENTATIVE)
  ∧ (∀ i e1 e2, statusHistory j !! i = Some e1 →
       statusHistory j !! S i = Some e2 →
       fromStatus e2 = Some (toStatus e1))
  ∧ toStatus <$> last (statusHistory j) = Some (status j).

(** What one request can make of a stored job [j] of collection [db]. *)
Inductive job_step (db : Store) (j : Job) : Op → Job → Prop :=
  | step_same op : job_step db j op j
  | step_transition jobId newStatus user note now errors w :
      transition_prepare j newStatus user note now = inr w →
      job_step db j (Transition jobId newStatus user note now errors)
        (apply_update (snd w) j)
  | step_assign jobId technicianId user note now errors u :
      status j = CONFIRMED →
      assign_prepare db technicianId user note now = inr u →
      job_step db j (Assign jobId technicianId user note now errors)
        (apply_update u j)
  | step_reassign jobId technicianId user note now errors e :
      status j ∈ reassignableStatuses →
      fromStatus e = Some (status j) → toStatus e = ASSIGNED →
      changedBy e = user_id user →
      job_step db j (Reassign jobId technicianId user note now errors)
        (apply_push [e]
           (apply_set
              {| d_title := None; d_description := None;
                 d_customerName := None; d_customerPhone := None;
                 d_customerEmail := None; d_address := None;
                 d_scheduledDate := None;
                 d_status := Some ASSIGNED;
                 d_assignedTechnician := Some technicianId;
                 d_createdBy := None; d_statusHistory := None;
                 d_estimatedCost := None; d_actualCost := None;
                 d_completedAt := None; d_billedAt := None;
                 d_notes := None |} j))
  | step_edit jobId body errors :
      status j ≠ BILLED →
      job_step db j (Edit jobId body errors) (apply_set (safeData body) j).

(** The requests that go through the transition, assignment and
    reassignment code. *)
Definition is_coordinator (op : Op) : bool :=
  match op with
  | Transition _ _ _ _ _ _ | Assign _ _ _ _ _ _ | Reassign _ _ _ _ _ _ => true
  | Edit _ _ _ | Delete _ => false
  end.

(** *** The two time stamps *)

(** [completedAt] is set from COMPLETED on and [billedAt] once BILLED. *)
Definition stamps_ok (j : Job) : Prop :=
  (is_Some (completedAt j) ↔ status j = COMPLETED ∨ status j = BILLED)
  ∧ (is_Some (billedAt j) ↔ status j = BILLED).

(** The body of a detail edit has neither a [completedAt] nor a [billedAt]
    key. *)
Definition leaves_stamps_out (op : Op) : Prop :=
  match op with
  | Edit _ body _ => d_completedAt body = None ∧ d_billedAt body = None
  | _ => True
  end.

(** ** A job taken through its life, used for the examples *)

Definition admin : User :=
  {| user_id := 1; user_name := "Admin User"; user_role := ADMIN |}.
Definition manager : User :=
  {| user_id := 2; user_name := "Office Manager"; user_role := OFFICE_MANAGER |}.
Definition manager2 : User :=
  {| user_id := 3; user_name := "Second Manager"; user_role := OFFICE_MANAGER |}.
Definition tech1 : User :=
  {| user_id := 4; user_name := "John Tech"; user_role := TECHNICIAN |}.
Definition tech2 : User :=
  {| user_id := 5; user_name := "Jane Tech"; user_role := TECHNICIAN |}.

Definition db_empty : Store :=
  {| jobs := ∅;
     users := list_to_map [(1, admin); (2, manager); (3, manager2);
                           (4, tech1); (5, tech2)] |}.

Definition new_job_body : JobData :=
  {| d_title := Some "Rewire panel"; d_description := None;
     d_customerName := Some "Acme"; d_customerPhone := None;
     d_customerEmail := None; d_address := None; d_scheduledDate := None;
     d_status := None; d_assignedTechnician := None; d_createdBy := None;
     d_statusHistory := None; d_estimatedCost := Some 100%N;
     d_actualCost := None; d_completedAt := None; d_billedAt := None;
     d_notes := None |}.

Definition db_tentative : Store :=
  match createJob db_empty new_job_body 1 1000 with
  | Some (db, _, _) => db
  | None => db_empty
  end.

Definition db_confirmed : Store :=
  run_ops [Transition 0 CONFIRMED admin None 2000 []] db_tentative.
Definition db_assigned : Store :=
  run_ops [Assign 0 4 admin None 3000 []] db_confirmed.
Definition db_dispatched : Store :=
  run_ops [Transition 0 DISPATCHED manager (Some "bring part X") 4000 []]
    db_assigned.
Definition db_in_progress : Store :=
  run_ops [Transition 0 IN_PROGRESS tech1 None 5000 []] db_dispatched.
Definition db_completed : Store :=
  run_ops [Transition 0 COMPLETED tech1 None 6000 []] db_in_progress.
Definition db_billed : Store :=
  run_ops [Transition 0 BILLED manager None 7000 []] db_completed.

(** The job with [_id] 0, when there is one. *)
Definition job_of (db : Store) : Job :=
  default
    {| title := EmptyString; description := None; customerName := EmptyString;
       customerPhone := None; customerEmail := None; address := None;
       scheduledDate := None; status := TENTATIVE;
       assignedTechnician := None; createdBy := 0; statusHistory := [];
       estimatedCost := None; actualCost := None; completedAt := None;
       billedAt := None; job_notes := None |}
    (jobs db !! 0).

(** Two managers dispatch the same job with different notes. *)
Definition dispatch_calls : list Call :=
  [ {| call_status := DISPATCHED; call_user := manager;
       call_notes := Some "bring part X"; call_now := 4000 |};
    {| call_status := DISPATCHED; call_user := manager2;
       call_notes := Some "customer prefers mornings"; call_now := 4001 |} ].

(** An admin confirms, a manager dispatches too early and without notes,
    the admin moves the job on, the manager dispatches. *)
Definition early_calls : list Call :=
  [ {| call_status := CONFIRMED; call_user := admin;
       call_notes := None; call_now := 2000 |};
    {| call_status := DISPATCHED; call_user := manager;
       call_notes := Some "  "; call_now := 2500 |};
    {| call_status := ASSIGNED; call_user := admin;
       call_notes := None; call_now := 3000 |};
    {| call_status := DISPATCHED; call_user := manager;
       call_notes := Some "bring part X"; call_now := 4000 |} ].

(** A detail edit whose body names the two time stamps. *)
Definition stamps_body : JobData :=
  {| d_title := None; d_description := None; d_customerName := None;
     d_customerPhone := None; d_customerEmail := None; d_address := None;
     d_scheduledDate := None; d_status := None; d_assignedTechnician := None;
     d_createdBy := None; d_statusHistory := None; d_estimatedCost := None;
     d_actualCost := None; d_completedAt := Some 1%Z; d_billedAt := Some 2%Z;
     d_notes := None |}.

(** What may still be asked once the job is completed: an edit of the
    descriptive fields, a reassignment, a second completion, the billing, a
    delete. *)
Definition late_ops : list Op :=
  [ Edit 0 new_job_body [];
    Reassign 0 5 admin None 6100 [];
    Transition 0 COMPLETED tech1 None 6200 [];
    Transition 0 BILLED manager None 7000 [];
    Delete 0 ].

(** The statuses of the job and the lengths of its history along the life
    above. *)
Definition life : list (Status * nat) :=
  (λ db, (status (job_of db), length (statusHistory (job_of db))))
    <$> [db_tentative; db_confirmed; db_assigned; db_dispatched;
         db_in_progress; db_completed; db_billed].

(** ** middleware/auth.js: authorize *)

Definition msg_access_denied (allowedRoles : list Role) (role : Role) : string :=
  "Access denied. Required roles: " +:+ join (map role_name allowedRoles)
  +:+ ". Your role: " +:+ role_name role.

(** [authorize(...allowedRoles)] on [req.user]: the reply it sends itself, or
    [None] when it calls [next()]. *)
Definition authorize (allowedRoles : list Role) (user : option User)
  : option Response :=
  match user with
  | None => Some (SendError 401 "Not authenticated.")
  | Some u =>
      if negb (includes allowedRoles (user_role u))
      then Some (SendError 403 (msg_access_denied allowedRoles (user_role u)))
      else None
  end.

(** ** routes/jobs.js: the routes that write, as they are mounted

    A request of an authenticated user: the route, its parameters and body. *)
Inductive Req :=
  | PatchStatus (jobId : ObjectId) (newStatus : Status)
      (notes : option string) (now : Date) (errors : list string)
  | PatchAssign (jobId technicianId : ObjectId)
      (notes : option string) (now : Date) (errors : list string)
  | PatchReassign (jobId technicianId : ObjectId)
      (notes : option string) (now : Date) (errors : list string)
  | PutJob (jobId : ObjectId) (body : JobData) (errors : list string)
  | DeleteJob (jobId : ObjectId).

(** The roles given to [authorize] on the route; [None] where the route has
    no [authorize]. *)
Definition route_roles (r : Req) : option (list Role) :=
  match r with
  | PatchStatus _ _ _ _ _ => None
  | PatchAssign _ _ _ _ _ => Some [ADMIN]
  | PatchReassign _ _ _ _ _ => Some [ADMIN]
  | PutJob _ _ _ => Some [ADMIN; OFFICE_MANAGER]
  | DeleteJob _ => Some [ADMIN]
  end.

(** The handler of the route, with [req.user]. *)
Definition op_of (user : User) (r : Req) : Op :=
  match r with
  | PatchStatus jobId newStatus notes now errors =>
      Transition jobId newStatus user notes now errors
  | PatchAssign jobId technicianId notes now errors =>
      Assign jobId technicianId user notes now errors
  | PatchReassign jobId technicianId notes now errors =>
      Reassign jobId technicianId user notes now errors
  | PutJob jobId body errors => Edit jobId body errors
  | DeleteJob jobId => Delete jobId
  end.

Definition route (user : User) (r : Req) (db : Store) : Store * Response :=
  match route_roles r ≫= (λ roles, authorize roles (Some user)) with
  | Some reply => (db, reply)
  | None => exec (op_of user r) db
  end.

Definition run_routes (reqs : list (User * Req)) (db : Store) : Store :=
  foldl (λ db ur, fst (route (fst ur) (snd ur) db)) db reqs.

(** ** routes/jobs.js: the routes that read *)

Definition techVisibleStatuses : list Status :=
  [DISPATCHED; IN_PROGRESS; COMPLETED; BILLED].

Definition managerVisibleStatuses : list Status :=
  [CONFIRMED; ASSIGNED; DISPATCHED; IN_PROGRESS; COMPLETED; BILLED].

Definition msg_not_authorized : string := "Not authorized to view this job".

(** The [_id] of [job.assignedTechnician] after [populate]: the reference
    resolves to a user document or to null. *)
Definition populated_technician (db : Store) (job : Job) : option ObjectId :=
  assignedTechnician job
  ≫= (λ t, match users db !! t with Some _ => Some t | None => None end).

(** GET /api/jobs/:id *)
Definition get_handler (db : Store) (jobId : ObjectId) (user : User) : Response :=
  match jobs db !! jobId with
  | None => SendError 404 msg_not_found
  | Some job =>
      if bool_decide (status job = TENTATIVE)
         && negb (bool_decide (user_role user = ADMIN))
      then SendError 403 msg_not_authorized
      else if bool_decide (user_role user = TECHNICIAN)
      then
        if negb (includes techVisibleStatuses (status job))
        then SendError 403 msg_not_authorized
        else if negb (bool_decide (populated_technician db job
                                   = Some (user_id user)))
        then SendError 403 msg_not_authorized
        else SendData 200 job None
      else SendData 200 job None
  end.

(** A condition on [status] in a query filter: a string to equal, or
    [{ $in: [...] }]. *)
Inductive StatusCond :=
  | StatusIs (s : string)
  | StatusIn (l : list Status).

Record Filter := {
  f_status : option StatusCond;
  f_assignedTechnician : option ObjectId;
}.

(** A query parameter that is present and not the empty string. *)
Definition truthy (s : option string) : option string :=
  match s with
  | Some (String a r) => Some (String a r)
  | _ => None
  end.

(** [visible.includes(status) ? status : '__none__'], or
    [{ $in: visible }] without a [status] parameter. *)
Definition visible_cond (visible : list Status) (q_status : option string)
  : StatusCond :=
  match truthy q_status with
  | Some s =>
      StatusIs (if includes (map status_name visible) s then s else "__none__")
  | None => StatusIn visible
  end.

(** GET /api/jobs: the filter built from [req.query] and [req.user]; the
    [assignedTechnician] parameter is an id when it is given. *)
Definition list_filter (user : User) (q_status : option string)
    (q_assignedTechnician : option ObjectId) : Filter :=
  let filter :=
    if bool_decide (user_role user = TECHNICIAN)
    then {| f_assignedTechnician := Some (user_id user);
            f_status := Some (visible_cond techVisibleStatuses q_status) |}
    else if bool_decide (user_role user = OFFICE_MANAGER)
    then {| f_assignedTechnician := None;
            f_status := Some (visible_cond managerVisibleStatuses q_status) |}
    else {| f_assignedTechnician := None;
            f_status := StatusIs <$> truthy q_status |} in
  match q_assignedTechnician with
  | Some t =>
      if negb (bool_decide (user_role user = TECHNICIAN))
      then {| f_assignedTechnician := Some t; f_status := f_status filter |}
      else filter
  | None => filter
  end.

(** Whether a stored job matches the filter of [Job.find]. *)
Definition matches (f : Filter) (job : Job) : bool :=
  match f_status f with
  | None => true
  | Some (StatusIs s) => bool_decide (status_name (status job) = s)
  | Some (StatusIn l) => includes l (status job)
  end
  && match f_assignedTechnician f with
     | None => true
     | Some t => bool_decide (assignedTechnician job = Some t)
     end.

(** What GET /api/jobs/:id/history sends. *)
Inductive HistoryReply :=
  | SendHistory (jobId : ObjectId) (title : string) (currentStatus : Status)
      (history : list HistoryEntry)
  | HistoryError (code : nat) (error : string).

(** GET /api/jobs/:id/history *)
Definition history_handler (db : Store) (jobId : ObjectId) : HistoryReply :=
  match jobs db !! jobId with
  | None => HistoryError 404 msg_not_found
  | Some job => SendHistory jobId (title job) (status job) (statusHistory job)
  end.

(** ** socket.js *)

(** The rooms [user:<id>] and [role:<role>]. *)
Inductive Room :=
  | UserRoom (id : ObjectId)
  | RoleRoom (role : Role).

#[global] Instance Room_eq_dec : EqDecision Room.
Proof. solve_decision. Defined.

(** [io.to(rooms).except(room).emit(event, data)]. *)
Record Emission (D : Type) := {
  em_event : string;
  em_data : D;
  em_rooms : list Room;
  em_except : option Room;
}.
Arguments em_event {D} _.
Arguments em_data {D} _.
Arguments em_rooms {D} _.
Arguments em_except {D} _.

(** [emitToUsers]; [io] tells whether the server has been initialised, and
    [None] is a return without emitting. *)
Definition emitToUsers {D} (io : bool) (event : string) (data : D)
    (recipientIds : list ObjectId) (recipientRoles : list Role)
    (excludeUserId : option ObjectId) : option (Emission D) :=
  if negb io then None
  else
    let rooms : list Room :=
      ((UserRoom <$> filter (λ id, excludeUserId ≠ Some id) recipientIds)
       ++ (RoleRoom <$> recipientRoles))%list in
    match rooms with
    | [] => None
    | _ :: _ =>
        match excludeUserId, recipientRoles with
        | Some x, _ :: _ =>
            Some {| em_event := event; em_data := data; em_rooms := rooms;
                    em_except := Some (UserRoom x) |}
        | _, _ =>
            Some {| em_event := event; em_data := data; em_rooms := rooms;
                    em_except := None |}
        end
    end.

(** The rooms a connection joins in [initSocket]. *)
Definition joined (userId : ObjectId) (userRole : Role) : list Room :=
  [UserRoom userId; RoleRoom userRole].

(** Whether the connection of a user gets the emission: it is in one of the
    rooms and not in the excepted room. *)
Definition receives {D} (e : Emission D) (userId : ObjectId) (userRole : Role)
  : bool :=
  existsb (includes (joined userId userRole)) (em_rooms e)
  && negb (match em_except e with
           | Some x => includes (joined userId userRole) x
           | None => false
           end).

(** ** services/NotificationService.js *)

(** The argument of [createNotification]; an option that is left out is the
    empty list or [None]. *)
Record NotifyArgs := {
  na_type : string;
  na_message : string;
  na_jobId : option ObjectId;
  na_recipientIds : list ObjectId;
  na_recipientRoles : list Role;
  na_excludeUserId : option ObjectId;
}.

(** A document of the notification collection. *)
Record Notification := {
  n_recipient : ObjectId;
  n_type : string;
  n_message : string;
  n_job : option ObjectId;
}.

(** [User.find({ role: { $in: roles }, isActive: true }).select('_id')];
    [active] is the [isActive] path of the user documents. *)
Definition role_users (db : Store) (active : ObjectId → bool)
    (roles : list Role) : list ObjectId :=
  fst <$> filter (λ ku, user_role (snd ku) ∈ roles ∧ active (fst ku) = true)
            (map_to_list (users db)).

(** [if (!recipients.includes(id)) recipients.push(id)]. *)
Definition push_new (recipients : list ObjectId) (id : ObjectId)
  : list ObjectId :=
  if includes recipients id then recipients else recipients ++ [id].

(** The recipients [createNotification] ends up with. *)
Definition notification_recipients (db : Store) (active : ObjectId → bool)
    (a : NotifyArgs) : list ObjectId :=
  let recipients := na_recipientIds a in
  let recipients :=
    match na_recipientRoles a with
    | [] => recipients
    | _ :: _ =>
        foldl push_new recipients (role_users db active (na_recipientRoles a))
    end in
  match na_excludeUserId a with
  | Some x => filter (λ id, id ≠ x) recipients
  | None => recipients
  end.

(** [createNotification]: the documents inserted and the event emitted. *)
Definition createNotification (io : bool) (db : Store) (active : ObjectId → bool)
    (a : NotifyArgs)
  : list Notification * option (Emission (string * string * option ObjectId)) :=
  match notification_recipients db active a with
  | [] => ([], None)
  | recipients =>
      ((λ recipientId,
          {| n_recipient := recipientId; n_type := na_type a;
             n_message := na_message a; n_job := na_jobId a |}) <$> recipients,
       emitToUsers io "notification" (na_type a, na_message a, na_jobId a)
         recipients [] (na_excludeUserId a))
  end.

(** ** routes/jobs.js: who is told of a change *)

Definition quoted (s : string) : string := quote +:+ s +:+ quote.

(** [STATUS_MESSAGES[status]]. *)
Definition STATUS_MESSAGES (title : string) (s : Status) : option string :=
  match s with
  | TENTATIVE => None
  | CONFIRMED => Some ("Job " +:+ quoted title +:+ " has been confirmed")
  | ASSIGNED => Some ("Job " +:+ quoted title +:+ " has been assigned")
  | DISPATCHED =>
      Some ("Job " +:+ quoted title +:+ " has been dispatched to you")
  | IN_PROGRESS => Some ("Job " +:+ quoted title +:+ " is now in progress")
  | COMPLETED => Some ("Job " +:+ quoted title +:+ " has been completed")
  | BILLED => Some ("Job " +:+ quoted title +:+ " has been billed")
  end.

(** PATCH /api/jobs/:id/status, after the transition went through. *)
Definition status_notification (db : Store) (jobId : ObjectId)
    (newStatus : Status) (job : Job) (user : User) : NotifyArgs :=
  let notifRecipientIds :=
    if bool_decide (newStatus = DISPATCHED)
    then option_list (populated_technician db job) else [] in
  let notifRoles :=
    ((if includes [IN_PROGRESS; COMPLETED] newStatus
      then [ADMIN; OFFICE_MANAGER] else [])
     ++ (if bool_decide (newStatus = BILLED) then [ADMIN] else [])
     ++ (if bool_decide (newStatus = CONFIRMED)
         then [ADMIN; OFFICE_MANAGER] else []))%list in
  {| na_type :=
       "JOB_" +:+ (if bool_decide (newStatus = IN_PROGRESS) then "STARTED"
                   else status_name newStatus);
     na_message :=
       or_else (STATUS_MESSAGES (title job) newStatus)
         ("Job " +:+ quoted (title job) +:+ " status updated")
       +:+ " by " +:+ user_name user;
     na_jobId := Some jobId;
     na_recipientIds := notifRecipientIds;
     na_recipientRoles := notifRoles;
     na_excludeUserId := Some (user_id user) |}.

(** PATCH /api/jobs/:id/assign *)
Definition assign_notification (db : Store) (jobId : ObjectId) (job : Job)
    (user : User) : NotifyArgs :=
  {| na_type := "JOB_ASSIGNED";
     na_message :=
       "Job " +:+ quoted (title job) +:+ " has been assigned to "
       +:+ name_or (assignedTechnician job ≫= (λ t, users db !! t))
             "a technician"
       +:+ " by " +:+ user_name user;
     na_jobId := Some jobId;
     na_recipientIds := [];
     na_recipientRoles := [OFFICE_MANAGER];
     na_excludeUserId := Some (user_id user) |}.

(** PATCH /api/jobs/:id/reassign; [before] is the job as it was loaded. *)
Definition reassign_notification (db : Store) (jobId technicianId : ObjectId)
    (before : Job) (user : User) : NotifyArgs :=
  {| na_type := "JOB_REASSIGNED";
     na_message :=
       "Job " +:+ quoted (title before) +:+ " reassigned from "
       +:+ name_or (assignedTechnician before ≫= (λ t, users db !! t))
             "previous technician"
       +:+ " to " +:+ name_or (users db !! technicianId) "new technician"
       +:+ " by " +:+ user_name user;
     na_jobId := Some jobId;
     na_recipientIds := [];
     na_recipientRoles := [OFFICE_MANAGER];
     na_excludeUserId := Some (user_id user) |}.

Definition techNotifiedStatuses : list Status :=
  [DISPATCHED; IN_PROGRESS; COMPLETED].

(** DELETE /api/jobs/:id; [job] is the job as it was loaded, and nothing is
    created when there is nobody to tell. *)
Definition delete_notification (db : Store) (job : Job) (user : User)
  : option NotifyArgs :=
  let notifRecipientIds :=
    match populated_technician db job with
    | Some techId =>
        if includes techNotifiedStatuses (status job) then [techId] else []
    | None => []
    end in
  let notifRoles :=
    if negb (bool_decide (status job = TENTATIVE)) then [OFFICE_MANAGER]
    else [] in
  match notifRecipientIds, notifRoles with
  | [], [] => None
  | _, _ =>
      Some {| na_type := "JOB_DELETED";
              na_message :=
                "Job " +:+ quoted (title job) +:+ " has been deleted by "
                +:+ user_name user;
              na_jobId := None;
              na_recipientIds := notifRecipientIds;
              na_recipientRoles := notifRoles;
              na_excludeUserId := Some (user_id user) |}
  end.

(** PUT /api/jobs/:id; [updatedJob] is the job the update returned. *)
Definition put_notification (db : Store) (jobId : ObjectId) (updatedJob : Job)
    (user : User) : NotifyArgs :=
  let notifRoles :=
    (ADMIN :: (if negb (bool_decide (status updatedJob = TENTATIVE))
               then [OFFICE_MANAGER] else []))%list in
  let notifRecipientIds :=
    match populated_technician db updatedJob with
    | Some techId =>
        if includes techNotifiedStatuses (status updatedJob) then [techId]
        else []
    | None => []
    end in
  {| na_type := "JOB_UPDATED";
     na_message :=
       "Job " +:+ quoted (title updatedJob)
       +:+ " details have been updated by " +:+ user_name user;
     na_jobId := Some jobId;
     na_recipientIds := notifRecipientIds;
     na_recipientRoles := notifRoles;
     na_excludeUserId := Some (user_id user) |}.

(** The notification a route asks for, and the job it is about: the job
    the handler holds when it builds the notification.  A route that
    answers with an error asks for none. *)
Definition route_notification (user : User) (r : Req) (db : Store)
  : option (NotifyArgs * Job) :=
  match snd (route user r db), r with
  | SendData _ job _, PatchStatus jobId newStatus _ _ _ =>
      Some (status_notification db jobId newStatus job user, job)
  | SendData _ job _, PatchAssign jobId _ _ _ _ =>
      Some (assign_notification db jobId job user, job)
  | SendData _ job _, PatchReassign jobId technicianId _ _ _ =>
      match jobs db !! jobId with
      | Some before =>
          Some (reassign_notification db jobId technicianId before user, job)
      | None => None
      end
  | SendData _ job _, PutJob jobId _ _ =>
      Some (put_notification db jobId job user, job)
  | SendMessage _ _, DeleteJob jobId =>
      match jobs db !! jobId with
      | Some job => (λ a, (a, job)) <$> delete_notification db job user
      | None => None
      end
  | _, _ => None
  end.

(** Whether [user] may open [job] with GET /api/jobs/:id; the same checks
    as [get_handler], on a job at hand. *)
Definition may_view (db : Store) (job : Job) (user : User) : bool :=
  negb (bool_decide (status job = TENTATIVE)
        && negb (bool_decide (user_role user = ADMIN)))
  && (negb (bool_decide (user_role user = TECHNICIAN))
      || (includes techVisibleStatuses (status job)
          && bool_decide (populated_technician db job = Some (user_id user)))).

(** ** Properties of stored jobs *)

(** Once work has started the job has an assigned technician. *)
Definition staffed (j : Job) : Prop :=
  status j ∈ [IN_PROGRESS; COMPLETED; BILLED] → is_Some (assignedTechnician j).

(** A record that the requests can write: the creation record, a move of
    [STATUS_TRANSITIONS] for some role, or the rewind of a reassignment. *)
Definition legal_record (e : HistoryEntry) : bool :=
  match fromStatus e with
  | None => bool_decide (toStatus e = TENTATIVE)
  | Some s =>
      existsb (λ role, bool_decide (validateTransition s (toStatus e) role = None))
        [ADMIN; OFFICE_MANAGER; TECHNICIAN]
      || (bool_decide (toStatus e = ASSIGNED) && includes reassignableStatuses s)
  end.

(** The paths of a job that no transition, assignment or reassignment
    writes. *)
Definition details (j : Job)
  : string * option string * string * option string * option string
    * option string * option Date * option N * option N * option string
    * ObjectId :=
  (title j, description j, customerName j, customerPhone j, customerEmail j,
   address j, scheduledDate j, estimatedCost j, actualCost j, job_notes j,
   createdBy j).

(** Every user document is stored under its own [_id]. *)
Definition users_keyed (db : Store) : Prop :=
  ∀ k u, users db !! k = Some u → user_id u = k.

(** Whether a string has only white space. *)
Fixpoint all_space (s : string) : bool :=
  match s with
  | String a s' => is_space a && all_space s'
  | EmptyString => true
  end.

(** A job taken through the routes: confirmed, assigned, dispatched,
    started, reassigned to a second technician, dispatched again, started
    and completed by the second technician, with a refused request of the
    first technician in between. *)
Definition life_reqs : list (User * Req) :=
  [ (admin, PatchStatus 0 CONFIRMED None 2000 []);
    (admin, PatchAssign 0 4 None 3000 []);
    (manager, PatchStatus 0 DISPATCHED (Some "bring part X") 4000 []);
    (tech1, PatchStatus 0 IN_PROGRESS None 5000 []);
    (admin, PatchReassign 0 5 None 5500 []);
    (manager, PatchStatus 0 DISPATCHED (Some "take over") 5600 []);
    (tech1, PatchStatus 0 IN_PROGRESS None 5650 []);
    (tech2, PatchStatus 0 IN_PROGRESS None 5700 []);
    (tech2, PatchStatus 0 COMPLETED None 6000 []) ].

(** The job a request is about. *)
Definition req_jobId (r : Req) : ObjectId :=
  match r with
  | PatchStatus jobId _ _ _ _ | PatchAssign jobId _ _ _ _
  | PatchReassign jobId _ _ _ _ | PutJob jobId _ _ | DeleteJob jobId => jobId
  end.

(** The collection in which the job of a notification is looked at: the one
    the request leaves, or for a delete the one it found. *)
Definition seen_in (user : User) (r : Req) (db : Store) : Store :=
  match r with
  | DeleteJob _ => db
  | _ => fst (route user r db)
  end.

(** All users are active. *)
Definition all_active (id : ObjectId) : bool := true.

(** A notification of the second manager's doing, for the first
    technician and for the admins and managers. *)
Definition sample_args : NotifyArgs :=
  {| na_type := "JOB_UPDATED"; na_message := "Job updated";
     na_jobId := Some 0; na_recipientIds := [4];
     na_recipientRoles := [ADMIN; OFFICE_MANAGER];
     na_excludeUserId := Some 3 |}.

(** ** Theorems *)

Ltac mem_cases :=
  repeat match goal with
         | H : _ ∈ _ :: _ |- _ => apply elem_of_cons in H as [H|H]
         | H : _ ∈ [] |- _ => by apply elem_of_nil in H
         | H : _ ∉ _ |- _ => by (exfalso; apply H; repeat constructor)
         | H : False |- _ => destruct H
         end.

Lemma spec_row_roles cur tgt roles :
  (cur, tgt, roles) ∈ spec_table ↔ spec_roles cur tgt = Some roles.
Proof.
  unfold spec_table. split.
  - intros H. mem_cases; by inversion H.
  - intros H. destruct cur, tgt; vm_compute in H; try discriminate;
      injection H as <-; repeat constructor.
Qed.


(** *** Facts about the steps of [transitionStatus] *)

Lemma validateTransition_ne cur tgt role :
  validateTransition cur tgt role = None → cur ≠ tgt.
Proof.
  unfold validateTransition. intros H ->. by rewrite decide_True in H.
Qed.

(** The shape of the write a call prepares. *)
Lemma transition_prepare_inr job newStatus user note now w :
  transition_prepare job newStatus user note now = inr w →
  validateTransition (status job) newStatus (user_role user) = None
  ∧ fst w = status job
  ∧ d_status (upd_set (snd w)) = Some newStatus
  ∧ d_statusHistory (upd_set (snd w)) = None
  ∧ d_assignedTechnician (upd_set (snd w)) = None
  ∧ d_createdBy (upd_set (snd w)) = None
  ∧ d_completedAt (upd_set (snd w))
    = (if decide (newStatus = COMPLETED) then Some now else None)
  ∧ d_billedAt (upd_set (snd w))
    = (if decide (newStatus = BILLED) then Some now else None)
  ∧ ∃ e, upd_push (snd w) = [e]
         ∧ fromStatus e = Some (status job) ∧ toStatus e = newStatus
         ∧ changedBy e = user_id user ∧ changedAt e = now
         ∧ notes e = or_else note
                       ("Status changed from " +:+ status_name (status job)
                        +:+ " to " +:+ status_name newStatus).
Proof.
  unfold transition_prepare.
  destruct (validateTransition _ _ _); [done|].
  destruct (_ && blank _); [done|].
  destruct (_ && negb _); [done|].
  intros [= <-]. simpl. eauto 20.
Qed.

Lemma transition_commit_hit db jobId w j :
  jobs db !! jobId = Some j → status j = fst w →
  transition_commit db jobId w
  = (with_jobs db (<[jobId := apply_update (snd w) j]> (jobs db)),
     Data (apply_update (snd w) j)).
Proof.
  intros Hj Hs. unfold transition_commit, findOneAndUpdate.
  rewrite Hj. by rewrite decide_True.
Qed.

Lemma transition_commit_miss db jobId w j :
  jobs db !! jobId = Some j → status j ≠ fst w →
  transition_commit db jobId w = (db, Error msg_conflict 409).
Proof.
  intros Hj Hs. unfold transition_commit, findOneAndUpdate.
  rewrite Hj. by rewrite decide_False.
Qed.

(** A call that runs alone is its two steps taken one after the other. *)
Lemma transitionStatus_steps db jobId c :
  let '(db1, p1) := step_call db jobId c Called in
  let '(db2, p2) := step_call db1 jobId c p1 in
  ∃ seen, p2 = Returned seen
                 (snd (transitionStatus db jobId (call_status c) (call_user c)
                         (call_notes c) (call_now c)))
          ∧ db2 = fst (transitionStatus db jobId (call_status c) (call_user c)
                         (call_notes c) (call_now c)).
Proof.
  unfold step_call, transitionStatus.
  destruct (jobs db !! jobId) as [job|]; [|by eexists].
  destruct (transition_prepare _ _ _ _ _) as [err|w]; [by eexists|].
  destruct (transition_commit db jobId w) as [db' r]. by eexists.
Qed.

(** *** The race on one job *)

Section Race.
Context (jobId : ObjectId) (calls : list Call) (db0 : Store) (job0 : Job)
        (T : Status).
Hypothesis Hjob : jobs db0 !! jobId = Some job0.
Hypothesis Hvalid : ∀ c, c ∈ calls →
  call_status c = T
  ∧ ∃ w, transition_prepare job0 T (call_user c) (call_notes c) (call_now c)
         = inr w.

Lemma race_prepared i c :
  calls !! i = Some c →
  call_status c = T
  ∧ ∃ u, transition_prepare job0 (call_status c) (call_user c) (call_notes c)
           (call_now c) = inr (status job0, u)
         ∧ status (apply_update u job0) = T
         ∧ status job0 ≠ T.
Proof.
  intros Hc. apply list_elem_of_lookup_2 in Hc.
  destruct (Hvalid c Hc) as (HT & [s u] & Hw). split; [done|].
  rewrite HT. destruct (transition_prepare_inr _ _ _ _ _ _ Hw)
    as (Hv & Hs & Hst & _). simpl in *. subst s.
  exists u. split; [done|]. split.
  - by rewrite Hst.
  - by apply validateTransition_ne in Hv.
Qed.

Lemma race_step st i :
  race_inv jobId calls db0 job0 T st →
  race_inv jobId calls db0 job0 T (step jobId calls st i).
Proof.
  destruct st as [db procs]. intros [Hlen Hph]. unfold step.
  unfold before_write, after_write in Hph. simpl in *.
  destruct (calls !! i) as [c|] eqn:Hc; [|by split].
  destruct (procs !! i) as [p|] eqn:Hp; [|by split].
  destruct (race_prepared i c Hc) as (HT & u & Hw & HsT & Hne).
  destruct Hph as [[-> Hwait] | (winner & u' & Hcw & Hdb & Hwin & Hrest)].
  - (* nobody has written yet *)
    destruct (Hwait i p Hp) as [-> | (c' & w & Hc' & Hw' & ->)]; simpl.
    + rewrite Hjob, Hw. split; [simpl; by rewrite length_insert|]. left.
      split; [done|]. intros i' p' Hp'. simpl in Hp'.
      destruct (decide (i = i')) as [<-|Hii].
      * rewrite list_lookup_insert_eq in Hp' by (by eapply lookup_lt_Some).
        injection Hp' as <-. right. eauto.
      * rewrite list_lookup_insert_ne in Hp' by done. eauto.
    + assert (c' = c) as -> by congruence.
      assert (w = (status job0, u)) as -> by congruence.
      rewrite (transition_commit_hit _ _ _ job0) by done. simpl.
      split; [simpl; by rewrite length_insert|]. right. exists i, u.
      split; [eauto|]. simpl. split; [by rewrite lookup_insert_eq|].
      split; [by rewrite list_lookup_insert_eq by (by eapply lookup_lt_Some)|].
      intros i' p' Hii Hp'.
      rewrite list_lookup_insert_ne in Hp' by done. left. eauto.
  - (* the winner has written *)
    destruct (decide (i = winner)) as [->|Hiw].
    + rewrite Hwin in Hp. injection Hp as <-. simpl.
      rewrite list_insert_id by done. split; [done|]. right.
      exists winner, u'. by repeat split.
    + assert (Hst' : status (apply_update u' job0) = T).
      { destruct Hcw as (cw & Hcw & Hpw).
        destruct (race_prepared winner cw Hcw) as (_ & u2 & Hw2 & Hs2 & _).
        congruence. }
      assert (Hkeep : ∀ q,
        (waiting calls job0 i q
         ∨ q = Returned (Some (status job0)) (Error msg_conflict 409)
         ∨ ∃ r, q = Returned (Some T) r) →
        race_inv jobId calls db0 job0 T (db, <[i := q]> procs)).
      { intros q Hq. split; [simpl; by rewrite length_insert|]. right.
        exists winner, u'. split; [done|]. split; [done|]. simpl.
        split; [by rewrite list_lookup_insert_ne|].
        intros i' p' Hi' Hp'. destruct (decide (i = i')) as [<-|Hii].
        - rewrite list_lookup_insert_eq in Hp' by (by eapply lookup_lt_Some).
          by injection Hp' as <-.
        - rewrite list_lookup_insert_ne in Hp' by done. eauto. }
      destruct (Hrest i p Hiw Hp)
        as [[-> | (c' & w & Hc' & Hw' & ->)] | [-> | [r ->]]];
        cbn [step_call].
      * rewrite Hdb.
        destruct (transition_prepare (apply_update u' job0) _ _ _ _)
          as [err|w] eqn:Hprep.
        -- apply Hkeep. right. right. rewrite Hst'. eauto.
        -- apply transition_prepare_inr in Hprep as (Hv & _).
           apply validateTransition_ne in Hv. congruence.
      * assert (c' = c) as -> by congruence.
        assert (w = (status job0, u)) as -> by congruence.
        rewrite (transition_commit_miss _ _ _ _ Hdb)
          by (cbn [fst]; rewrite Hst'; congruence).
        apply Hkeep. right. by left.
      * apply Hkeep. right. by left.
      * apply Hkeep. right. right. eauto.
Qed.

Lemma race_run sched st :
  race_inv jobId calls db0 job0 T st →
  race_inv jobId calls db0 job0 T (run jobId calls sched st).
Proof.
  revert st. induction sched as [|i sched IH]; intros st Hst; [done|].
  simpl. apply IH. by apply race_step.
Qed.

Lemma race_start :
  race_inv jobId calls db0 job0 T (db0, replicate (length calls) Called).
Proof.
  split; [simpl; by rewrite length_replicate|]. left. split; [done|].
  intros i p Hp. simpl in Hp. apply lookup_replicate in Hp as [-> _].
  by left.
Qed.
End Race.




(** *** What each operation does to the collection *)

Lemma transitionStatus_effect db jobId newStatus user note now :
  let res := transitionStatus db jobId newStatus user note now in
  (fst res = db ∧ is_data (snd res) = false)
  ∨ ∃ j w, jobs db !! jobId = Some j
           ∧ transition_prepare j newStatus user note now = inr w
           ∧ fst res = with_jobs db (<[jobId := apply_update (snd w) j]> (jobs db))
           ∧ snd res = Data (apply_update (snd w) j).
Proof.
  unfold transitionStatus.
  destruct (jobs db !! jobId) as [j|] eqn:Hj; [|by left].
  destruct (transition_prepare j newStatus user note now) as [err|w] eqn:Hw.
  - left. split; [done|].
    unfold transition_prepare in Hw.
    destruct (validateTransition _ _ _); [by injection Hw as <-|].
    destruct (_ && blank _); [by injection Hw as <-|].
    destruct (_ && negb _); [by injection Hw as <-|done].
  - destruct (transition_prepare_inr _ _ _ _ _ _ Hw) as (_ & Hs & _).
    right. exists j, w. rewrite (transition_commit_hit _ _ _ j) by done.
    done.
Qed.

Lemma assign_prepare_inr db technicianId user note now u :
  assign_prepare db technicianId user note now = inr u →
  d_status (upd_set u) = Some ASSIGNED
  ∧ d_statusHistory (upd_set u) = None
  ∧ d_assignedTechnician (upd_set u) = Some technicianId
  ∧ d_createdBy (upd_set u) = None
  ∧ d_completedAt (upd_set u) = None
  ∧ d_billedAt (upd_set u) = None
  ∧ ∃ e, upd_push u = [e] ∧ fromStatus e = Some CONFIRMED
         ∧ toStatus e = ASSIGNED.
Proof.
  unfold assign_prepare.
  destruct (users db !! technicianId); [|done].
  destruct (negb _); [done|].
  destruct (validateTransition _ _ _); [done|].
  intros [= <-]. simpl. eauto 10.
Qed.

Lemma assign_prepare_inl db technicianId user note now err :
  assign_prepare db technicianId user note now = inl err →
  is_data err = false.
Proof.
  unfold assign_prepare.
  destruct (users db !! technicianId); [|by intros [= <-]].
  destruct (negb _); [by intros [= <-]|].
  destruct (validateTransition _ _ _); [by intros [= <-]|done].
Qed.

Lemma assign_diagnose_error db jobId : is_data (assign_diagnose db jobId) = false.
Proof. unfold assign_diagnose. by destruct (jobs db !! jobId). Qed.

Lemma assignTechnician_effect db jobId technicianId user note now :
  let res := assignTechnician db jobId technicianId user note now in
  (fst res = db ∧ is_data (snd res) = false)
  ∨ ∃ j u, jobs db !! jobId = Some j ∧ status j = CONFIRMED
           ∧ assign_prepare db technicianId user note now = inr u
           ∧ fst res = with_jobs db (<[jobId := apply_update u j]> (jobs db))
           ∧ snd res = Data (apply_update u j).
Proof.
  unfold assignTechnician.
  destruct (assign_prepare _ _ _ _ _) as [err|u] eqn:Hu.
  - left. split; [done|]. by eapply assign_prepare_inl.
  - unfold findOneAndUpdate.
    destruct (jobs db !! jobId) as [j|] eqn:Hj.
    + destruct (decide (status j = CONFIRMED)) as [Hs|Hs].
      * right. by exists j, u.
      * left. split; [done|]. apply assign_diagnose_error.
    + left. split; [done|]. apply assign_diagnose_error.
Qed.

Lemma reassign_handler_effect db jobId technicianId user note now errors :
  let res := reassign_handler db jobId technicianId user note now errors in
  (fst res = db ∧ success (snd res) = false)
  ∨ ∃ j r, jobs db !! jobId = Some j
           ∧ status j ∈ reassignableStatuses
           ∧ reassign_load db jobId technicianId user note now errors = inr r
           ∧ d_status (upd_set (ra_changes r)) = Some ASSIGNED
           ∧ d_statusHistory (upd_set (ra_changes r)) = None
           ∧ d_assignedTechnician (upd_set (ra_changes r)) = Some technicianId
           ∧ d_createdBy (upd_set (ra_changes r)) = None
           ∧ d_completedAt (upd_set (ra_changes r)) = None
           ∧ d_billedAt (upd_set (ra_changes r)) = None
           ∧ (∃ e, upd_push (ra_changes r) = [e]
                   ∧ fromStatus e = Some (status j) ∧ toStatus e = ASSIGNED
                   ∧ changedBy e = user_id user)
           ∧ ra_document r = apply_update (ra_changes r) j
           ∧ fst res
             = with_jobs db (<[jobId := apply_update (ra_changes r) j]> (jobs db))
           ∧ snd res
             = SendData 200 (apply_update (ra_changes r) j)
                 (Some ("Reassigned to " +:+ ra_newTechName r)).
Proof.
  unfold reassign_handler, reassign_load.
  destruct errors; [|by left].
  destruct (jobs db !! jobId) as [j|] eqn:Hj; [|by left].
  destruct (negb _) eqn:Hin; [by left|].
  right. eexists j, _. split; [done|]. split.
  { apply negb_false_iff in Hin. by apply bool_decide_eq_true in Hin. }
  split; [done|]. simpl.
  repeat (split; [done|]). split; [eauto 10|].
  unfold reassign_save, save. simpl. by rewrite Hj.
Qed.

Lemma updateJobDetails_effect db jobId data :
  let res := updateJobDetails db jobId data in
  (fst res = db ∧ is_data (snd res) = false)
  ∨ ∃ j, jobs db !! jobId = Some j
         ∧ fst res
           = with_jobs db (<[jobId := apply_set (safeData data) j]> (jobs db))
         ∧ snd res = Data (apply_set (safeData data) j).
Proof.
  unfold updateJobDetails, findByIdAndUpdate.
  destruct (jobs db !! jobId) as [j|]; [right; by exists j | by left].
Qed.

(** Every request either leaves a stored job as it is or changes it in one
    of the ways of [job_step]. *)
Lemma exec_job_step op db id j j' :
  jobs db !! id = Some j →
  jobs (fst (exec op db)) !! id = Some j' →
  job_step db j op j'.
Proof.
  intros Hj Hj'.
  assert (Hsame : ∀ j2, Some j = Some j2 → job_step db j op j2).
  { intros j2 [= <-]. constructor. }
  destruct op as [jobId T user note now errors
                 |jobId technicianId user note now errors
                 |jobId technicianId user note now errors
                 |jobId body errors
                 |jobId]; simpl in Hj'.
  - unfold status_handler in Hj'. destruct errors; [|cbn [fst] in Hj'; apply Hsame; congruence].
    destruct (transitionStatus_effect db jobId T user note now)
      as [[Hdb _] | (j0 & w & Hj0 & Hw & Hdb & Hr)];
      destruct (transitionStatus _ _ _ _ _ _) as [db' [d|e c]];
      simpl in *; subst db'; unfold with_jobs in Hj'; cbn [jobs] in Hj';
      try (apply Hsame; congruence); try done.
    destruct (decide (jobId = id)) as [->|Hne].
    + rewrite lookup_insert_eq in Hj'. injection Hj' as <-.
      assert (j0 = j) as -> by congruence. by econstructor.
    + rewrite lookup_insert_ne in Hj' by done. apply Hsame; congruence.
  - unfold assign_handler in Hj'. destruct errors; [|cbn [fst] in Hj'; apply Hsame; congruence].
    destruct (assignTechnician_effect db jobId technicianId user note now)
      as [[Hdb _] | (j0 & u & Hj0 & Hs & Hu & Hdb & Hr)];
      destruct (assignTechnician _ _ _ _ _ _) as [db' [d|e c]];
      simpl in *; subst db'; unfold with_jobs in Hj'; cbn [jobs] in Hj';
      try (apply Hsame; congruence); try done.
    destruct (decide (jobId = id)) as [->|Hne].
    + rewrite lookup_insert_eq in Hj'. injection Hj' as <-.
      assert (j0 = j) as -> by congruence. by econstructor.
    + rewrite lookup_insert_ne in Hj' by done. apply Hsame; congruence.
  - destruct (reassign_handler_effect db jobId technicianId user note now errors)
      as [[Hdb _] | (j0 & r & Hj0 & Hs & Hr & _ & _ & _ & _ & _ & _ & He & _
                     & Hdb & _)].
    + rewrite Hdb in Hj'. apply Hsame; congruence.
    + rewrite Hdb in Hj'. unfold with_jobs in Hj'. cbn [jobs] in Hj'.
      destruct (decide (jobId = id)) as [->|Hne].
      * rewrite lookup_insert_eq in Hj'. injection Hj' as <-.
        assert (j0 = j) as -> by congruence.
        unfold reassign_load in Hr. destruct errors; [|done].
        rewrite Hj in Hr. destruct (negb _); [done|].
        injection Hr as <-. simpl in *.
        destruct He as (e & [= <-] & ? & ? & ?).
        by apply step_reassign.
      * rewrite lookup_insert_ne in Hj' by done. apply Hsame; congruence.
  - unfold put_handler in Hj'. destruct errors; [|cbn [fst] in Hj'; apply Hsame; congruence].
    destruct (bool_decide _) eqn:Hb;
      [cbn [fst] in Hj'; apply Hsame; congruence|].
    destruct (updateJobDetails_effect db jobId body)
      as [[Hdb _] | (j0 & Hj0 & Hdb & Hr)];
      destruct (updateJobDetails _ _ _) as [db' [d|e c]];
      simpl in *; subst db'; unfold with_jobs in Hj'; cbn [jobs] in Hj';
      try (apply Hsame; congruence); try done.
    destruct (decide (jobId = id)) as [->|Hne].
    + rewrite lookup_insert_eq in Hj'. injection Hj' as <-.
      assert (j0 = j) as -> by congruence.
      apply step_edit. apply bool_decide_eq_false in Hb.
      intros Hst. apply Hb. by rewrite Hj, <- Hst.
    + rewrite lookup_insert_ne in Hj' by done. apply Hsame; congruence.
  - unfold delete_handler in Hj'.
    destruct (jobs db !! jobId) as [j0|] eqn:Hj0;
      [|cbn [fst] in Hj'; apply Hsame; congruence].
    destruct (decide (status j0 = BILLED));
      [cbn [fst] in Hj'; apply Hsame; congruence|].
    unfold with_jobs in Hj'. cbn [fst jobs] in Hj'.
    destruct (decide (jobId = id)) as [->|Hne].
    + by rewrite lookup_delete_eq in Hj'.
    + rewrite lookup_delete_ne in Hj' by done. apply Hsame; congruence.
Qed.

(** *** The history ledger *)

Lemma job_step_history db j op j' :
  job_step db j op j' →
  (status j' = status j ∧ statusHistory j' = statusHistory j)
  ∨ ∃ e, statusHistory j' = (statusHistory j ++ [e])%list
         ∧ fromStatus e = Some (status j) ∧ toStatus e = status j'.
Proof.
  intros [ ?
         | jobId T user note now errors w Hw
         | jobId technicianId user note now errors u Hs Hu
         | jobId technicianId user note now errors e Hs Hfrom Hto Hby
         | jobId body errors Hs ].
  - by left.
  - destruct (transition_prepare_inr _ _ _ _ _ _ Hw)
      as (_ & _ & Hst & Hh & _ & _ & _ & _ & e & He & Hfrom & Hto & _).
    right. exists e. simpl. rewrite Hst, Hh, He. by simpl.
  - destruct (assign_prepare_inr _ _ _ _ _ _ Hu)
      as (Hst & Hh & _ & _ & _ & _ & e & He & Hfrom & Hto).
    right. exists e. simpl. rewrite Hst, Hh, He. simpl. by rewrite Hs.
  - right. exists e. by simpl.
  - by left.
Qed.

Lemma ledger_append j j' e :
  ledger_ok j →
  statusHistory j' = (statusHistory j ++ [e])%list →
  fromStatus e = Some (status j) → toStatus e = status j' →
  ledger_ok j'.
Proof.
  intros ((e0 & He0 & Hcreated) & Hchain & Hlast) Hh Hfrom Hto.
  unfold ledger_ok. rewrite Hh. split; [|split].
  - exists e0. split; [|done].
    rewrite lookup_app_l; [done|]. by eapply lookup_lt_Some.
  - intros i e1 e2 H1 H2.
    destruct (decide (S i < length (statusHistory j))) as [Hlt|Hge].
    + rewrite lookup_app_l in H1 by lia. rewrite lookup_app_l in H2 by lia.
      eauto.
    + assert (Hi : S i = length (statusHistory j)).
      { apply lookup_lt_Some in H2. rewrite length_app in H2. simpl in H2. lia. }
      rewrite lookup_app_l in H1 by lia.
      rewrite lookup_app_r in H2 by lia.
      replace (S i - length (statusHistory j)) with 0 in H2 by lia.
      injection H2 as <-.
      rewrite last_lookup, <- Hi in Hlast. simpl in Hlast.
      rewrite H1 in Hlast. simpl in Hlast. congruence.
  - rewrite last_snoc. simpl. by rewrite Hto.
Qed.

Lemma job_step_ledger db j op j' :
  job_step db j op j' → ledger_ok j → ledger_ok j'.
Proof.
  intros Hstep Hok.
  destruct (job_step_history _ _ _ _ Hstep) as [[Hs Hh] | (e & Hh & Hf & Ht)].
  - unfold ledger_ok in *. by rewrite Hs, Hh.
  - by eapply ledger_append.
Qed.

Lemma createJob_ledger db data userId now db1 jobId job :
  createJob db data userId now = Some (db1, jobId, job) →
  jobs db1 !! jobId = Some job
  ∧ jobs db !! jobId = None
  ∧ status job = TENTATIVE
  ∧ length (statusHistory job) = 1
  ∧ completedAt job = None ∧ billedAt job = None
  ∧ createdBy job = userId
  ∧ ledger_ok job.
Proof.
  unfold createJob.
  destruct (d_title data); [|done]. destruct (d_customerName data); [|done].
  intros [= <- <- <-]. simpl.
  split; [by rewrite lookup_insert_eq|].
  split; [apply not_elem_of_dom, is_fresh|].
  repeat (split; [done|]).
  split; [eauto|]. split; [|done].
  intros [|i] e1 e2 H1 H2; simpl in *; done.
Qed.

Lemma transitions_ledger jobId calls : ∀ db j db2 n,
  jobs db !! jobId = Some j → ledger_ok j →
  transitions db jobId calls = (db2, n) →
  ∃ j2, jobs db2 !! jobId = Some j2 ∧ ledger_ok j2
        ∧ length (statusHistory j2) = length (statusHistory j) + n.
Proof.
  induction calls as [|c calls IH]; intros db j db2 n Hj Hok Hrun; simpl in Hrun.
  - injection Hrun as <- <-. exists j. split; [done|]. split; [done|]. lia.
  - destruct (transitionStatus_effect db jobId (call_status c) (call_user c)
                (call_notes c) (call_now c))
      as [[Hdb Hr] | (j0 & w & Hj0 & Hw & Hdb & Hr)];
      destruct (transitionStatus _ _ _ _ _ _) as [db1 r];
      destruct (transitions db1 jobId calls) as [db3 m] eqn:Hrest;
      injection Hrun as <- <-; simpl in Hdb, Hr; subst db1.
    + rewrite Hr. eapply IH; eauto.
    + subst r. assert (j0 = j) as -> by congruence.
      pose proof (step_transition db j jobId _ _ _ _ [] w Hw) as Hstep.
      destruct (IH _ (apply_update (snd w) j) _ _
                  (lookup_insert_eq _ _ _)
                  (job_step_ledger _ _ _ _ Hstep Hok) Hrest)
        as (j2 & Hj2 & Hok2 & Hlen).
      exists j2. split; [done|]. split; [done|]. rewrite Hlen.
      destruct (transition_prepare_inr _ _ _ _ _ _ Hw)
        as (_ & _ & _ & Hh & _ & _ & _ & _ & e & He & _).
      simpl. rewrite Hh, He, length_app. simpl. lia.
Qed.



Ltac split_conj := repeat match goal with |- _ ∧ _ => split end.

Ltac store_simpl H := unfold with_jobs in H; cbn [jobs users fst snd] in H.

(** Only a delete removes a job, and never a billed one. *)
Lemma exec_lookup_None op db id j :
  jobs db !! id = Some j →
  jobs (fst (exec op db)) !! id = None →
  op = Delete id ∧ status j ≠ BILLED.
Proof.
  intros Hj Hj'.
  destruct op as [jobId T user note now errors
                 |jobId technicianId user note now errors
                 |jobId technicianId user note now errors
                 |jobId body errors
                 |jobId]; simpl in Hj'.
  - unfold status_handler in Hj'. destruct errors; [|store_simpl Hj'; congruence].
    destruct (transitionStatus_effect db jobId T user note now)
      as [[Hdb _] | (j0 & w & Hj0 & Hw & Hdb & Hr)];
      destruct (transitionStatus _ _ _ _ _ _) as [db' [d|e c]];
      simpl in *; subst db'; store_simpl Hj'; try congruence.
    destruct (decide (jobId = id)) as [->|Hne].
    + by rewrite lookup_insert_eq in Hj'.
    + rewrite lookup_insert_ne in Hj' by done. congruence.
  - unfold assign_handler in Hj'. destruct errors; [|store_simpl Hj'; congruence].
    destruct (assignTechnician_effect db jobId technicianId user note now)
      as [[Hdb _] | (j0 & u & Hj0 & Hs0 & Hu & Hdb & Hr)];
      destruct (assignTechnician _ _ _ _ _ _) as [db' [d|e c]];
      simpl in *; subst db'; store_simpl Hj'; try congruence.
    destruct (decide (jobId = id)) as [->|Hne].
    + by rewrite lookup_insert_eq in Hj'.
    + rewrite lookup_insert_ne in Hj' by done. congruence.
  - destruct (reassign_handler_effect db jobId technicianId user note now errors)
      as [[Hdb _] | (j0 & r & Hj0 & _ & _ & _ & _ & _ & _ & _ & _ & _ & _ & Hdb & _)];
      rewrite Hdb in Hj'; [congruence|]. store_simpl Hj'.
    destruct (decide (jobId = id)) as [->|Hne].
    + by rewrite lookup_insert_eq in Hj'.
    + rewrite lookup_insert_ne in Hj' by done. congruence.
  - unfold put_handler in Hj'. destruct errors; [|store_simpl Hj'; congruence].
    destruct (bool_decide _); [store_simpl Hj'; congruence|].
    unfold updateJobDetails, findByIdAndUpdate in Hj'.
    destruct (jobs db !! jobId) eqn:Hj0; store_simpl Hj'; [|congruence].
    destruct (decide (jobId = id)) as [->|Hne].
    + by rewrite lookup_insert_eq in Hj'.
    + rewrite lookup_insert_ne in Hj' by done. congruence.
  - unfold delete_handler in Hj'.
    destruct (jobs db !! jobId) as [j0|] eqn:Hj0; [|store_simpl Hj'; congruence].
    destruct (decide (status j0 = BILLED)) as [Hb|Hb];
      store_simpl Hj'; [congruence|].
    destruct (decide (jobId = id)) as [->|Hne].
    + split; [done|]. congruence.
    + rewrite lookup_delete_ne in Hj' by done. congruence.
Qed.

(** *** The terminal status *)

Lemma transitionStatus_billed db jobId job newStatus user note now :
  jobs db !! jobId = Some job → status job = BILLED →
  transitionStatus db jobId newStatus user note now
  = (db, Error (if decide (newStatus = BILLED) then msg_already
                else msg_invalid BILLED newStatus []) 400).
Proof.
  intros Hj Hs. unfold transitionStatus, transition_prepare.
  rewrite Hj, Hs. by destruct newStatus.
Qed.



(** *** The technician's own jobs *)

Lemma technician_never_dispatches cur :
  validateTransition cur DISPATCHED TECHNICIAN ≠ None.
Proof. by destruct cur. Qed.

(** C8, as the code has it: for a job that exists and a caller whose role is
    TECHNICIAN and who is not the job's assigned technician,
    [transitionStatus] always fails and writes nothing; the failure is the
    403 "You are not assigned to this job" whenever the requested move passes
    [validateTransition] for a technician, and is the 400 of
    [validateTransition] when it does not. *)
Theorem technician_must_be_assigned (db : Store) (jobId : ObjectId) (job : Job)
    (newStatus : Status) (user : User) (note : option string) (now : Date) :
  jobs db !! jobId = Some job →
  user_role user = TECHNICIAN →
  assignedTechnician job ≠ Some (user_id user) →
  (validateTransition (status job) newStatus TECHNICIAN = None →
   transitionStatus db jobId newStatus user note now
   = (db, Error msg_not_assigned 403))
  ∧ (∀ err, validateTransition (status job) newStatus TECHNICIAN = Some err →
       transitionStatus db jobId newStatus user note now = (db, Error err 400))
  ∧ fst (transitionStatus db jobId newStatus user note now) = db
  ∧ is_data (snd (transitionStatus db jobId newStatus user note now)) = false.
Proof.
  intros Hj Hrole Hother.
  assert (Hpass : validateTransition (status job) newStatus TECHNICIAN = None →
    transitionStatus db jobId newStatus user note now
    = (db, Error msg_not_assigned 403)).
  { intros Hv. unfold transitionStatus, transition_prepare.
    rewrite Hj, Hrole, Hv.
    assert (newStatus ≠ DISPATCHED) as Hnd.
    { intros ->. by apply technician_never_dispatches in Hv. }
    rewrite (bool_decide_eq_false_2 _ Hnd). simpl.
    by rewrite (bool_decide_eq_false_2 _ Hother). }
  assert (Hfail : ∀ err,
    validateTransition (status job) newStatus TECHNICIAN = Some err →
    transitionStatus db jobId newStatus user note now = (db, Error err 400)).
  { intros err Hv. unfold transitionStatus, transition_prepare.
    by rewrite Hj, Hrole, Hv. }
  split; [done|]. split; [done|].
  destruct (validateTransition (status job) newStatus TECHNICIAN) as [err|] eqn:Hv.
  - by rewrite (Hfail err).
  - by rewrite Hpass.
Qed.

Lemma technician_must_be_assigned_witness :
  transitionStatus db_dispatched 0 IN_PROGRESS tech2 None 5000
  = (db_dispatched, Error "You are not assigned to this job" 403).
Proof.
  destruct (technician_must_be_assigned db_dispatched 0 (job_of db_dispatched)
              IN_PROGRESS tech2 None 5000) as (H & _).
  - vm_compute; reflexivity.
  - reflexivity.
  - intros E. vm_compute in E. discriminate.
  - exact (H eq_refl).
Defined.

(** C8 as stated fails: a technician who is not the job's assigned
    technician and asks for a move the table does not have is answered by
    the 400 of [validateTransition], not by "You are not assigned". *)
Lemma technician_not_assigned_counterexample :
  jobs db_dispatched !! 0 = Some (job_of db_dispatched)
  ∧ user_role tech2 = TECHNICIAN
  ∧ assignedTechnician (job_of db_dispatched) = Some (user_id tech1)
  ∧ user_id tech1 ≠ user_id tech2
  ∧ snd (transitionStatus db_dispatched 0 COMPLETED tech2 None 5000)
    = Error "Invalid transition from DISPATCHED to COMPLETED. Valid: IN_PROGRESS"
        400
  ∧ snd (transitionStatus db_dispatched 0 COMPLETED tech2 None 5000)
    ≠ Error msg_not_assigned 403.
Proof.
  split_conj; try (vm_compute; reflexivity);
    intros E; vm_compute in E; discriminate.
Qed.

(** *** Detail edits *)



(** The stripping is what protects the four paths: the same body given to
    the collection as it came would overwrite them. *)
Lemma unstripped_update_overwrites :
  status <$> snd (findByIdAndUpdate db_assigned 0
                    {| d_title := None; d_description := None;
                       d_customerName := None; d_customerPhone := None;
                       d_customerEmail := None; d_address := None;
                       d_scheduledDate := None; d_status := Some BILLED;
                       d_assignedTechnician := None; d_createdBy := None;
                       d_statusHistory := Some []; d_estimatedCost := None;
                       d_actualCost := None; d_completedAt := None;
                       d_billedAt := None; d_notes := None |})
  = Some BILLED.
Proof. vm_compute. reflexivity. Qed.

(** *** First assignment *)

(** C10: when the conditional write of [assignTechnician] matches no
    document, nothing is written, and the call returns what one lookup of
    the job finds: 404 "Job not found" when there is no such job, otherwise
    the 400 that names the status the job has; whatever collection the
    lookup sees, its outcome is an error and never a second write. *)
Theorem assign_conflict_is_diagnosed (db : Store) (jobId technicianId : ObjectId)
    (user : User) (note : option string) (now : Date) (u : UpdateDoc) :
  assign_prepare db technicianId user note now = inr u →
  snd (findOneAndUpdate db jobId CONFIRMED u) = None →
  fst (findOneAndUpdate db jobId CONFIRMED u) = db
  ∧ assignTechnician db jobId technicianId user note now
    = (db, assign_diagnose db jobId)
  ∧ (jobs db !! jobId = None →
     snd (assignTechnician db jobId technicianId user note now)
     = Error "Job not found" 404)
  ∧ (∀ current, jobs db !! jobId = Some current →
       status current ≠ CONFIRMED
       ∧ snd (assignTechnician db jobId technicianId user note now)
         = Error ("Job must be CONFIRMED to assign. Current status: "
                  +:+ status_name (status current)) 400)
  ∧ (∀ later,
       is_data (assign_diagnose later jobId) = false
       ∧ (jobs later !! jobId = None →
          assign_diagnose later jobId = Error "Job not found" 404)
       ∧ (∀ current, jobs later !! jobId = Some current →
            assign_diagnose later jobId
            = Error ("Job must be CONFIRMED to assign. Current status: "
                     +:+ status_name (status current)) 400)).
Proof.
  intros Hu Hmiss.
  assert (Hwrite : findOneAndUpdate db jobId CONFIRMED u = (db, None)
                   ∧ ∀ current, jobs db !! jobId = Some current →
                       status current ≠ CONFIRMED).
  { unfold findOneAndUpdate in *.
    destruct (jobs db !! jobId) as [j|]; [|done].
    destruct (decide (status j = CONFIRMED)); [done|].
    split; [done|]. by intros current [= <-]. }
  destruct Hwrite as [Hwrite Hcur].
  assert (Hres : assignTechnician db jobId technicianId user note now
                 = (db, assign_diagnose db jobId)).
  { unfold assignTechnician. by rewrite Hu, Hwrite. }
  rewrite Hwrite, Hres. simpl. split; [done|]. split; [done|].
  assert (Hdiag : ∀ later,
    is_data (assign_diagnose later jobId) = false
    ∧ (jobs later !! jobId = None →
       assign_diagnose later jobId = Error "Job not found" 404)
    ∧ (∀ current, jobs later !! jobId = Some current →
         assign_diagnose later jobId
         = Error ("Job must be CONFIRMED to assign. Current status: "
                  +:+ status_name (status current)) 400)).
  { intros later. split; [apply assign_diagnose_error|].
    unfold assign_diagnose. destruct (jobs later !! jobId); split; try done.
    by intros current [= <-]. }
  split; [apply Hdiag|]. split; [|done].
  intros current Hc. split; [by apply Hcur|]. by apply Hdiag.
Qed.

Lemma assign_conflict_is_diagnosed_witness :
  assignTechnician db_dispatched 0 5 admin None 4500
  = (db_dispatched,
     Error "Job must be CONFIRMED to assign. Current status: DISPATCHED" 400).
Proof.
  destruct (assign_prepare db_dispatched 5 admin None 4500) as [err|u] eqn:Hu;
    [vm_compute in Hu; discriminate|].
  destruct (assign_conflict_is_diagnosed db_dispatched 0 5 admin None 4500 u Hu)
    as (_ & Hres & _).
  - vm_compute in Hu. injection Hu as <-. vm_compute. reflexivity.
  - rewrite Hres. vm_compute. reflexivity.
Defined.

(** *** Reassignment *)

(** What the handler does when the request is well formed: the gate on the
    status, and the changes it saves. *)
Lemma reassign_handler_gate db jobId technicianId user note now j :
  jobs db !! jobId = Some j →
  (status j ∉ reassignableStatuses →
   reassign_handler db jobId technicianId user note now []
   = (db, SendError 400 (msg_cannot_reassign (status j))))
  ∧ (status j ∈ reassignableStatuses →
     ∃ j' e,
       jobs (fst (reassign_handler db jobId technicianId user note now []))
         !! jobId = Some j'
       ∧ success (snd (reassign_handler db jobId technicianId user note now []))
         = true
       ∧ assignedTechnician j' = Some technicianId
       ∧ status j' = ASSIGNED
       ∧ statusHistory j' = (statusHistory j ++ [e])%list
       ∧ fromStatus e = Some (status j) ∧ toStatus e = ASSIGNED
       ∧ changedBy e = user_id user).
Proof.
  intros Hj. split.
  - intros Hout. unfold reassign_handler, reassign_load. rewrite Hj.
    unfold includes. by rewrite bool_decide_eq_false_2.
  - intros Hin.
    destruct (reassign_handler_effect db jobId technicianId user note now [])
      as [[Hdb Hfail] | (j0 & r & Hj0 & _ & Hr & Hst & Hh & Ht & _ & _ & _
                         & (e & He & Hfrom & Hto & Hby) & _ & Hdb & Hres)].
    + exfalso. revert Hfail. unfold reassign_handler, reassign_load.
      rewrite Hj. unfold includes. rewrite bool_decide_eq_true_2 by done.
      simpl. unfold reassign_save, save. simpl. by rewrite Hj.
    + assert (j0 = j) as -> by congruence.
      exists (apply_update (ra_changes r) j), e.
      rewrite Hdb, Hres. simpl. rewrite lookup_insert_eq, Hst, Hh, Ht, He.
      by simpl.
Qed.

Lemma save_ignores_status db jobId u j :
  jobs db !! jobId = Some j →
  save db jobId u = Some (with_jobs db (<[jobId := apply_update u j]> (jobs db))).
Proof. intros Hj. unfold save. by rewrite Hj. Qed.

(** C5 fails on the code.  An admin's reassignment reads the job while it is
    IN_PROGRESS; the technician's COMPLETED transition lands; the
    reassignment then saves: the save goes through, puts the job back to
    ASSIGNED over the newer COMPLETED, and appends a record that starts from
    IN_PROGRESS after one that ended in COMPLETED.  A conditional write keyed
    on the status read would have matched nothing. *)
Theorem reassign_overwrites_newer_status :
  ∃ r, reassign_load db_in_progress 0 5 admin None 5500 [] = inr r
       ∧ status (job_of db_in_progress) = IN_PROGRESS
       ∧ fst (transitionStatus db_in_progress 0 COMPLETED tech1 None 6000)
         = db_completed
       ∧ status (job_of db_completed) = COMPLETED
       ∧ success (snd (reassign_save db_completed 0 r)) = true
       ∧ status (job_of (fst (reassign_save db_completed 0 r))) = ASSIGNED
       ∧ assignedTechnician (job_of (fst (reassign_save db_completed 0 r)))
         = Some 5
       ∧ (λ e, (fromStatus e, toStatus e))
           <$> drop 5 (statusHistory (job_of (fst (reassign_save db_completed 0 r))))
         = [(Some IN_PROGRESS, COMPLETED); (Some IN_PROGRESS, ASSIGNED)]
       ∧ findOneAndUpdate db_completed 0 IN_PROGRESS (ra_changes r)
         = (db_completed, None).
Proof.
  destruct (reassign_load db_in_progress 0 5 admin None 5500 []) as [e|r] eqn:Hr;
    vm_compute in Hr; [discriminate|].
  injection Hr as <-. eexists. split; [reflexivity|].
  split_conj; vm_compute; reflexivity.
Qed.

(** C7 fails on the code in its last part.  A reassignment to an id that no
    user has goes through and leaves the job assigned to that id, where the
    first assignment answers "Technician not found". *)
Theorem reassign_accepts_unknown_technician :
  users db_assigned !! 99 = None
  ∧ success (snd (reassign_handler db_assigned 0 99 admin None 3500 [])) = true
  ∧ http_code (snd (reassign_handler db_assigned 0 99 admin None 3500 [])) = 200
  ∧ assignedTechnician
      (job_of (fst (reassign_handler db_assigned 0 99 admin None 3500 [])))
    = Some 99
  ∧ snd (assignTechnician db_confirmed 0 99 admin None 3000)
    = Error "Technician not found" 404.
Proof. split_conj; vm_compute; reflexivity. Qed.

(** *** The two time stamps *)

Ltac stamps_solve :=
  repeat match goal with
         | H : _ ↔ _ |- _ => destruct H
         | H : is_Some (Some ?x) → _ |- _ =>
             specialize (H (ex_intro _ x eq_refl))
         | H : ?s = ?s ∨ _ → _ |- _ => specialize (H (or_introl eq_refl))
         | H : _ ∨ ?s = ?s → _ |- _ => specialize (H (or_intror eq_refl))
         | H : ?s = ?s → _ |- _ => specialize (H eq_refl)
         | H : is_Some None |- _ => by destruct H as [? ?]
         | H : _ ∨ _ |- _ => destruct H
         | H : Some _ = Some _ |- _ => injection H as H; subst
         | |- _ ∧ _ => split
         | |- _ ↔ _ => split
         | |- is_Some (Some _) => by eexists
         | |- _ → _ => intros ?
         | |- ∀ _, _ => intros ?
         end;
  try done; try discriminate; try congruence; eauto 10.

Lemma validateTransition_None cur tgt role :
  validateTransition cur tgt role = None →
  (cur, tgt, role) ∈ [ (TENTATIVE, CONFIRMED, ADMIN);
                       (CONFIRMED, ASSIGNED, ADMIN);
                       (ASSIGNED, DISPATCHED, OFFICE_MANAGER);
                       (DISPATCHED, IN_PROGRESS, TECHNICIAN);
                       (IN_PROGRESS, COMPLETED, TECHNICIAN);
                       (COMPLETED, BILLED, OFFICE_MANAGER) ].
Proof.
  destruct cur, tgt, role; intros H; vm_compute in H; try discriminate;
    repeat constructor.
Qed.

Lemma job_step_stamps db j op j' :
  job_step db j op j' → leaves_stamps_out op → stamps_ok j →
  stamps_ok j'
  ∧ (∀ t, completedAt j = Some t → completedAt j' = Some t)
  ∧ (∀ t, billedAt j = Some t → billedAt j' = Some t)
  ∧ (completedAt j = None → ∀ t, completedAt j' = Some t →
       status j = IN_PROGRESS ∧ status j' = COMPLETED
       ∧ ∃ jobId user note errors,
           op = Transition jobId COMPLETED user note t errors)
  ∧ (billedAt j = None → ∀ t, billedAt j' = Some t →
       status j = COMPLETED ∧ status j' = BILLED
       ∧ ∃ jobId user note errors,
           op = Transition jobId BILLED user note t errors).
Proof.
  intros Hstep Hplain [Hc Hb].
  destruct Hstep as [ ?
         | jobId T user note now errors w Hw
         | jobId technicianId user note now errors u Hs Hu
         | jobId technicianId user note now errors e Hs Hfrom Hto Hby
         | jobId body errors Hs ].
  - unfold stamps_ok. split; [done|]. split; [done|]. split; [done|].
    split; intros Hn t Ht; congruence.
  - destruct (transition_prepare_inr _ _ _ _ _ _ Hw)
      as (Hv & _ & Hst & _ & _ & _ & Hca & Hba & _).
    apply validateTransition_None in Hv.
    unfold stamps_ok. simpl. rewrite Hst, Hca, Hba. simpl.
    destruct (completedAt j) as [tc|], (billedAt j) as [tb|];
      mem_cases; injection Hv as Hcur HT Hrole; subst T; rewrite Hcur in *;
      simpl; stamps_solve.
  - destruct (assign_prepare_inr _ _ _ _ _ _ Hu)
      as (Hst & _ & _ & _ & Hca & Hba & _).
    unfold stamps_ok. simpl. rewrite Hst, Hca, Hba, Hs in *. simpl.
    destruct (completedAt j) as [tc|], (billedAt j) as [tb|]; stamps_solve.
  - unfold stamps_ok, reassignableStatuses in *. simpl.
    destruct (completedAt j) as [tc|], (billedAt j) as [tb|];
      mem_cases; rewrite Hs in *; stamps_solve.
  - destruct Hplain as [Hca Hba].
    unfold stamps_ok. simpl. rewrite Hca, Hba. simpl.
    destruct (completedAt j) as [tc|], (billedAt j) as [tb|]; stamps_solve.
Qed.

(** No request creates a job under an id that had none. *)
Lemma exec_lookup_Some_inv op db id j' :
  jobs (fst (exec op db)) !! id = Some j' → is_Some (jobs db !! id).
Proof.
  intros Hj'. destruct (jobs db !! id) as [j|] eqn:Hj; [by eexists|].
  exfalso.
  destruct op as [jobId T user note now errors
                 |jobId technicianId user note now errors
                 |jobId technicianId user note now errors
                 |jobId body errors
                 |jobId]; simpl in Hj'.
  - unfold status_handler in Hj'. destruct errors; [|store_simpl Hj'; congruence].
    destruct (transitionStatus_effect db jobId T user note now)
      as [[Hdb _] | (j0 & w & Hj0 & Hw & Hdb & Hr)];
      destruct (transitionStatus _ _ _ _ _ _) as [db' [d|e c]];
      simpl in *; subst db'; store_simpl Hj'; try congruence.
    destruct (decide (jobId = id)) as [->|Hne]; [congruence|].
    rewrite lookup_insert_ne in Hj' by done. congruence.
  - unfold assign_handler in Hj'. destruct errors; [|store_simpl Hj'; congruence].
    destruct (assignTechnician_effect db jobId technicianId user note now)
      as [[Hdb _] | (j0 & u & Hj0 & Hs0 & Hu & Hdb & Hr)];
      destruct (assignTechnician _ _ _ _ _ _) as [db' [d|e c]];
      simpl in *; subst db'; store_simpl Hj'; try congruence.
    destruct (decide (jobId = id)) as [->|Hne]; [congruence|].
    rewrite lookup_insert_ne in Hj' by done. congruence.
  - destruct (reassign_handler_effect db jobId technicianId user note now errors)
      as [[Hdb _] | (j0 & r & Hj0 & _ & _ & _ & _ & _ & _ & _ & _ & _ & _ & Hdb & _)];
      rewrite Hdb in Hj'; [congruence|]. store_simpl Hj'.
    destruct (decide (jobId = id)) as [->|Hne]; [congruence|].
    rewrite lookup_insert_ne in Hj' by done. congruence.
  - unfold put_handler in Hj'. destruct errors; [|store_simpl Hj'; congruence].
    destruct (bool_decide _); [store_simpl Hj'; congruence|].
    unfold updateJobDetails, findByIdAndUpdate in Hj'.
    destruct (jobs db !! jobId) eqn:Hj0; store_simpl Hj'; [|congruence].
    destruct (decide (jobId = id)) as [->|Hne]; [congruence|].
    rewrite lookup_insert_ne in Hj' by done. congruence.
  - unfold delete_handler in Hj'.
    destruct (jobs db !! jobId) as [j0|] eqn:Hj0; [|store_simpl Hj'; congruence].
    destruct (decide (status j0 = BILLED)) as [Hb|Hb];
      store_simpl Hj'; [congruence|].
    destruct (decide (jobId = id)) as [->|Hne]; [congruence|].
    rewrite lookup_delete_ne in Hj' by done. congruence.
Qed.

Lemma run_ops_lookup_Some_inv ops : ∀ db id j',
  jobs (run_ops ops db) !! id = Some j' → is_Some (jobs db !! id).
Proof.
  induction ops as [|op ops IH]; intros db id j' Hj'; [by eexists|].
  destruct (IH _ _ _ Hj') as [j1 Hj1]. by eapply exec_lookup_Some_inv.
Qed.

Lemma run_ops_stamps ops : ∀ db id j j',
  Forall leaves_stamps_out ops →
  jobs db !! id = Some j → jobs (run_ops ops db) !! id = Some j' →
  stamps_ok j →
  stamps_ok j'
  ∧ (∀ t, completedAt j = Some t → completedAt j' = Some t)
  ∧ (∀ t, billedAt j = Some t → billedAt j' = Some t).
Proof.
  induction ops as [|op ops IH]; intros db id j j' Hplain Hj Hj' Hok.
  - simpl in Hj'. assert (j' = j) as -> by congruence. done.
  - apply Forall_cons in Hplain as [Hop Hplain].
    destruct (run_ops_lookup_Some_inv ops _ _ _ Hj') as [j1 Hj1].
    destruct (job_step_stamps _ _ _ _ (exec_job_step _ _ _ _ _ Hj Hj1) Hop Hok)
      as (Hok1 & Hc1 & Hb1 & _).
    destruct (IH _ _ _ _ Hplain Hj1 Hj' Hok1) as (Hok' & Hc' & Hb').
    split; [done|]. split; eauto.
Qed.




(** *** The life of a job, end to end *)

Lemma end_to_end_scenario :
  life = [ (TENTATIVE, 1); (CONFIRMED, 2); (ASSIGNED, 3); (DISPATCHED, 4);
           (IN_PROGRESS, 5); (COMPLETED, 6); (BILLED, 7) ]
  ∧ assignedTechnician (job_of db_assigned) = Some (user_id tech1)
  ∧ completedAt (job_of db_completed) = Some 6000%Z
  ∧ billedAt (job_of db_billed) = Some 7000%Z
  ∧ snd (transitionStatus db_assigned 0 DISPATCHED manager (Some " ") 4000)
    = Error msg_dispatch_notes 400
  ∧ snd (transitionStatus db_billed 0 COMPLETED manager None 8000)
    = Error "Invalid transition from BILLED to COMPLETED. Valid: none (terminal state)"
        400.
Proof. split_conj; vm_compute; reflexivity. Qed.

(** * Beyond the claims: routes, visibility, notifications *)

(** *** Requests through the routes *)

(** The checks a prepared transition went through. *)
Lemma transition_prepare_checks job newStatus user note now w :
  transition_prepare job newStatus user note now = inr w →
  (newStatus = DISPATCHED → blank note = false)
  ∧ (user_role user = TECHNICIAN →
     assignedTechnician job = Some (user_id user)).
Proof.
  unfold transition_prepare.
  destruct (validateTransition _ _ _); [done|].
  destruct (bool_decide (newStatus = DISPATCHED)) eqn:Hd;
    destruct (blank note) eqn:Hb; simpl; try done;
    destruct (bool_decide (user_role user = TECHNICIAN)) eqn:Hr;
    destruct (bool_decide (assignedTechnician job = Some (user_id user))) eqn:Ha;
    simpl; try done; intros _;
    repeat match goal with
           | H : bool_decide _ = true |- _ => apply bool_decide_eq_true in H
           | H : bool_decide _ = false |- _ => apply bool_decide_eq_false in H
           end; split; intros; congruence.
Qed.

Lemma authorize_pass roles user :
  authorize roles (Some user) = None ↔ user_role user ∈ roles.
Proof.
  unfold authorize, includes. case_bool_decide; simpl; split; done.
Qed.

(** A route either refuses the request at [authorize], with 403 and nothing
    written, or runs its handler for a user of a role it admits. *)
Lemma route_cases user r db :
  (∃ roles, route_roles r = Some roles ∧ (user_role user ∉ roles)
            ∧ route user r db
              = (db, SendError 403 (msg_access_denied roles (user_role user))))
  ∨ ((∀ roles, route_roles r = Some roles → user_role user ∈ roles)
     ∧ route user r db = exec (op_of user r) db).
Proof.
  unfold route. destruct (route_roles r) as [roles|] eqn:Hr; simpl.
  - unfold authorize, includes. case_bool_decide; simpl.
    + right. split; [|done]. by intros ? [= <-].
    + left. by exists roles.
  - right. split; [|done]. by intros.
Qed.

Lemma route_job_step user r db id j j' :
  jobs db !! id = Some j →
  jobs (fst (route user r db)) !! id = Some j' →
  job_step db j (op_of user r) j'
  ∧ (j' ≠ j → ∀ roles, route_roles r = Some roles → user_role user ∈ roles).
Proof.
  intros Hj Hj'.
  destruct (route_cases user r db) as [(roles & _ & _ & Hr) | [Hok Hr]];
    rewrite Hr in Hj'.
  - simpl in Hj'. assert (j' = j) as -> by congruence.
    split; [constructor|done].
  - split; [by eapply exec_job_step|]. intros _. exact Hok.
Qed.

Lemma route_lookup_None user r db id j :
  jobs db !! id = Some j →
  jobs (fst (route user r db)) !! id = None →
  r = DeleteJob id ∧ status j ≠ BILLED ∧ user_role user = ADMIN.
Proof.
  intros Hj Hj'.
  destruct (route_cases user r db) as [(roles & _ & _ & Hr) | [Hok Hr]];
    rewrite Hr in Hj'; [simpl in Hj'; congruence|].
  destruct (exec_lookup_None _ _ _ _ Hj Hj') as [Hop Hb].
  destruct r; try discriminate. injection Hop as ->.
  split; [done|]. split; [done|].
  specialize (Hok [ADMIN] eq_refl). by mem_cases.
Qed.

Lemma route_lookup_Some_inv user r db id j' :
  jobs (fst (route user r db)) !! id = Some j' → is_Some (jobs db !! id).
Proof.
  destruct (route_cases user r db) as [(roles & _ & _ & Hr) | [Hok Hr]];
    rewrite Hr; [by eexists|]. apply exec_lookup_Some_inv.
Qed.

Lemma route_users user r db : users (fst (route user r db)) = users db.
Proof.
  destruct (route_cases user r db) as [(roles & _ & _ & Hr) | [Hok Hr]];
    rewrite Hr; [done|].
  destruct r as [jobId T note now errors
                |jobId technicianId note now errors
                |jobId technicianId note now errors
                |jobId body errors
                |jobId]; simpl.
  - unfold status_handler. destruct errors; [|done].
    destruct (transitionStatus_effect db jobId T user note now)
      as [[Hdb _] | (j0 & w & _ & _ & Hdb & _)];
      destruct (transitionStatus _ _ _ _ _ _) as [db' [d|e c]];
      simpl in *; by subst db'.
  - unfold assign_handler. destruct errors; [|done].
    destruct (assignTechnician_effect db jobId technicianId user note now)
      as [[Hdb _] | (j0 & u & _ & _ & _ & Hdb & _)];
      destruct (assignTechnician _ _ _ _ _ _) as [db' [d|e c]];
      simpl in *; by subst db'.
  - destruct (reassign_handler_effect db jobId technicianId user note now errors)
      as [[Hdb _] | (j0 & r & _ & _ & _ & _ & _ & _ & _ & _ & _ & _ & _ & Hdb & _)];
      by rewrite Hdb.
  - unfold put_handler. destruct errors; [|done].
    destruct (bool_decide _); [done|].
    unfold updateJobDetails, findByIdAndUpdate.
    by destruct (jobs db !! jobId).
  - unfold delete_handler. destruct (jobs db !! jobId); [|done].
    by destruct (decide _).
Qed.

Lemma assign_prepare_checks db technicianId user note now u :
  assign_prepare db technicianId user note now = inr u →
  (∃ technician, users db !! technicianId = Some technician
                 ∧ user_role technician = TECHNICIAN)
  ∧ validateTransition CONFIRMED ASSIGNED (user_role user) = None
  ∧ user_role user = ADMIN.
Proof.
  unfold assign_prepare.
  destruct (users db !! technicianId) as [t|]; [|done].
  destruct (bool_decide (user_role t = TECHNICIAN)) eqn:Ht; simpl; [|done].
  apply bool_decide_eq_true in Ht.
  destruct (validateTransition _ _ _) eqn:Hv; [done|]. intros _.
  split; [eauto|]. split; [done|]. by destruct (user_role user).
Qed.

(** What [job_step] says for each kind of request. *)
Lemma job_step_transition_inv db j jobId T user note now errors j' :
  job_step db j (Transition jobId T user note now errors) j' →
  j' = j ∨ ∃ w, transition_prepare j T user note now = inr w
                ∧ j' = apply_update (snd w) j.
Proof. inversion 1; subst; eauto. Qed.

Lemma job_step_assign_inv db j jobId technicianId user note now errors j' :
  job_step db j (Assign jobId technicianId user note now errors) j' →
  j' = j ∨ ∃ u, status j = CONFIRMED
                ∧ assign_prepare db technicianId user note now = inr u
                ∧ j' = apply_update u j.
Proof. inversion 1; subst; eauto. Qed.

Lemma job_step_reassign_inv db j jobId technicianId user note now errors j' :
  job_step db j (Reassign jobId technicianId user note now errors) j' →
  j' = j ∨ (status j ∈ reassignableStatuses
            ∧ status j' = ASSIGNED
            ∧ assignedTechnician j' = Some technicianId
            ∧ details j' = details j
            ∧ completedAt j' = completedAt j ∧ billedAt j' = billedAt j
            ∧ ∃ e, statusHistory j' = (statusHistory j ++ [e])%list
                   ∧ fromStatus e = Some (status j) ∧ toStatus e = ASSIGNED
                   ∧ changedBy e = user_id user).
Proof. inversion 1; subst; [by left|]. right. simpl. eauto 15. Qed.

Lemma job_step_edit_inv db j jobId body errors j' :
  job_step db j (Edit jobId body errors) j' →
  j' = j ∨ (status j ≠ BILLED ∧ j' = apply_set (safeData body) j).
Proof. inversion 1; subst; eauto. Qed.

Lemma job_step_delete_inv db j jobId j' :
  job_step db j (Delete jobId) j' → j' = j.
Proof. by inversion 1. Qed.

Lemma transition_prepare_frame job T user note now w j :
  transition_prepare job T user note now = inr w →
  details (apply_update (snd w) j) = details j
  ∧ assignedTechnician (apply_update (snd w) j) = assignedTechnician j.
Proof.
  unfold transition_prepare.
  destruct (validateTransition _ _ _); [done|].
  destruct (_ && blank _); [done|].
  destruct (_ && negb _); [done|].
  by intros [= <-].
Qed.

Lemma assign_prepare_frame db technicianId user note now u j :
  assign_prepare db technicianId user note now = inr u →
  details (apply_update u j) = details j
  ∧ completedAt (apply_update u j) = completedAt j
  ∧ billedAt (apply_update u j) = billedAt j.
Proof.
  unfold assign_prepare.
  destruct (users db !! technicianId); [|done].
  destruct (negb _); [done|].
  destruct (validateTransition _ _ _); [done|].
  by intros [= <-].
Qed.



(** X2: a request of a TECHNICIAN changes a stored job only through the
    status route, only when the job is assigned to that technician, and only
    from DISPATCHED to IN_PROGRESS or from IN_PROGRESS to COMPLETED; the
    descriptive paths and the assignment stay as they were. *)
Theorem technician_reach (user : User) (r : Req) (db : Store)
    (id : ObjectId) (j j' : Job) :
  user_role user = TECHNICIAN →
  jobs db !! id = Some j →
  jobs (fst (route user r db)) !! id = Some j' →
  j' ≠ j →
  (∃ jobId newStatus note now errors,
      r = PatchStatus jobId newStatus note now errors)
  ∧ assignedTechnician j = Some (user_id user)
  ∧ ((status j = DISPATCHED ∧ status j' = IN_PROGRESS)
     ∨ (status j = IN_PROGRESS ∧ status j' = COMPLETED))
  ∧ details j' = details j
  ∧ assignedTechnician j' = assignedTechnician j.
Proof.
  intros Hrole Hj Hj' Hne.
  destruct (route_job_step _ _ _ _ _ _ Hj Hj') as [Hstep Hok].
  specialize (Hok Hne).
  destruct r; simpl in *;
    try (specialize (Hok _ eq_refl); rewrite Hrole in Hok; mem_cases;
         discriminate).
  apply job_step_transition_inv in Hstep as [-> | (w & Hw & ->)]; [done|].
  destruct (transition_prepare_checks _ _ _ _ _ _ Hw) as [_ Hassigned].
  destruct (transition_prepare_inr _ _ _ _ _ _ Hw)
    as (Hv & _ & Hst & _ & Ha & Hc & _).
  destruct (transition_prepare_frame _ _ _ _ _ _ j Hw) as [Hd Hat].
  split; [eauto 10|]. split; [auto|].
  rewrite Hrole in Hv. apply validateTransition_None in Hv.
  split; [|done]. simpl. rewrite Hst. simpl.
  mem_cases; injection Hv as Hcur Hnew; try discriminate; subst; auto.
Qed.

Lemma technician_reach_witness :
  ∃ j', jobs (fst (route tech1 (PatchStatus 0 IN_PROGRESS None 5000 [])
                     db_dispatched)) !! 0 = Some j'
        ∧ status j' = IN_PROGRESS
        ∧ details j' = details (job_of db_dispatched).
Proof.
  destruct (jobs (fst (route tech1 (PatchStatus 0 IN_PROGRESS None 5000 [])
                         db_dispatched)) !! 0) as [j'|] eqn:Hj';
    [|vm_compute in Hj'; discriminate].
  destruct (technician_reach tech1 (PatchStatus 0 IN_PROGRESS None 5000 [])
              db_dispatched 0 (job_of db_dispatched) j')
    as (_ & _ & Hmove & Hd & _).
  - reflexivity.
  - vm_compute. reflexivity.
  - exact Hj'.
  - vm_compute in Hj'. injection Hj' as <-. intros E. vm_compute in E.
    discriminate.
  - exists j'. split; [done|]. split; [|done].
    destruct Hmove as [[_ ?] | [E _]]; [done|].
    vm_compute in E. discriminate.
Defined.



(** *** Who sees which job *)

Lemma status_name_not_none s : status_name s ≠ "__none__".
Proof. by destruct s. Qed.

Lemma includes_status_names (l : list Status) (s : Status) :
  includes (map status_name l) (status_name s) = includes l s.
Proof.
  unfold includes.
  apply bool_decide_ext. rewrite list_elem_of_fmap. split.
  - intros (s' & Heq & Hin). by destruct s, s'; try discriminate.
  - intros Hin. by exists s.
Qed.

Lemma visible_cond_matches visible q_status job :
  visible = managerVisibleStatuses ∨ visible = techVisibleStatuses →
  match visible_cond visible q_status with
  | StatusIs s => bool_decide (status_name (status job) = s)
  | StatusIn l => includes l (status job)
  end = true →
  status job ∈ visible.
Proof.
  intros Hvis. unfold visible_cond.
  destruct (truthy q_status) as [s|].
  - intros Heq. apply bool_decide_eq_true in Heq.
    destruct (includes (map status_name visible) s) eqn:Hin.
    + subst s. rewrite includes_status_names in Hin.
      by apply bool_decide_eq_true in Hin.
    + by apply status_name_not_none in Heq.
  - intros Hin. by apply bool_decide_eq_true in Hin.
Qed.

Lemma get_handler_may_view db jobId user job :
  jobs db !! jobId = Some job →
  get_handler db jobId user
  = if may_view db job user then SendData 200 job None
    else SendError 403 msg_not_authorized.
Proof.
  intros Hj. unfold get_handler, may_view. rewrite Hj.
  destruct (bool_decide (status job = TENTATIVE)),
           (bool_decide (user_role user = ADMIN)),
           (bool_decide (user_role user = TECHNICIAN)),
           (includes techVisibleStatuses (status job)),
           (bool_decide (populated_technician db job = Some (user_id user)));
    reflexivity.
Qed.

(** X4: every job that matches the filter of the list route, whatever the
    query parameters, can be opened by the same user with GET /api/jobs/:id;
    and without query parameters the filter matches exactly the jobs the user
    can open.  The requester is a user of the collection. *)
Theorem listed_jobs_are_viewable (db : Store) (user : User)
    (q_status : option string) (q_assignedTechnician : option ObjectId)
    (jobId : ObjectId) (job : Job) :
  is_Some (users db !! user_id user) →
  jobs db !! jobId = Some job →
  (matches (list_filter user q_status q_assignedTechnician) job = true →
   get_handler db jobId user = SendData 200 job None)
  ∧ (matches (list_filter user None None) job = true
     ↔ get_handler db jobId user = SendData 200 job None).
Proof.
  intros [u Hu] Hj.
  assert (Hpop : assignedTechnician job = Some (user_id user) →
                 populated_technician db job = Some (user_id user)).
  { intros Ha. unfold populated_technician. rewrite Ha. simpl. by rewrite Hu. }
  assert (Hpop' : populated_technician db job = Some (user_id user) →
                  assignedTechnician job = Some (user_id user)).
  { unfold populated_technician. destruct (assignedTechnician job) as [t|];
      simpl; [|done]. destruct (users db !! t); [|done]. by intros [= ->]. }
  rewrite (get_handler_may_view _ _ _ _ Hj).
  assert (Hfwd : ∀ qs qt, matches (list_filter user qs qt) job = true →
                          may_view db job user = true).
  { intros qs qt. unfold matches, list_filter, may_view.
    destruct (user_role user) eqn:Hrole; simpl.
    - (* ADMIN *) intros _. by rewrite andb_false_r.
    - (* OFFICE_MANAGER *)
      destruct qt as [t|]; simpl; intros [Hst _]%andb_true_iff;
        apply visible_cond_matches in Hst; auto;
        unfold managerVisibleStatuses in Hst; mem_cases; by rewrite Hst.
    - (* TECHNICIAN *)
      destruct qt as [t|]; simpl; intros [Hst Ha]%andb_true_iff;
        apply visible_cond_matches in Hst; auto;
        apply bool_decide_eq_true in Ha; apply Hpop in Ha;
        rewrite (bool_decide_eq_true_2 _ Ha);
        unfold techVisibleStatuses in Hst; mem_cases; by rewrite Hst. }
  split.
  - intros Hm. by rewrite (Hfwd _ _ Hm).
  - split.
    + intros Hm. by rewrite (Hfwd _ _ Hm).
    + destruct (may_view db job user) eqn:Hview; [intros _|done].
      revert Hview. unfold matches, list_filter, may_view.
      destruct (user_role user) eqn:Hrole; simpl.
      * done.
      * rewrite andb_true_r. destruct (status job); by vm_compute.
      * intros [Hst [Hs Ha]%andb_true_iff]%andb_true_iff.
        apply bool_decide_eq_true in Ha. apply Hpop' in Ha.
        rewrite Hs. simpl. by apply bool_decide_eq_true.
Qed.

Lemma listed_jobs_are_viewable_witness :
  matches (list_filter tech1 (Some "DISPATCHED") None) (job_of db_dispatched)
  = true
  ∧ get_handler db_dispatched 0 tech1
    = SendData 200 (job_of db_dispatched) None
  ∧ get_handler db_assigned 0 tech1 = SendError 403 msg_not_authorized
  ∧ get_handler db_dispatched 0 tech2 = SendError 403 msg_not_authorized
  ∧ get_handler db_tentative 0 manager = SendError 403 msg_not_authorized.
Proof.
  assert (Hm : matches (list_filter tech1 (Some "DISPATCHED") None)
                 (job_of db_dispatched) = true) by (vm_compute; reflexivity).
  split; [exact Hm|]. split.
  - destruct (listed_jobs_are_viewable db_dispatched tech1 (Some "DISPATCHED")
                None 0 (job_of db_dispatched)) as [H _].
    + vm_compute. by eexists.
    + vm_compute. reflexivity.
    + exact (H Hm).
  - split_conj; vm_compute; reflexivity.
Defined.

(** *** What holds of a job all its life *)

Lemma run_routes_lookup_Some_inv reqs : ∀ db id j',
  jobs (run_routes reqs db) !! id = Some j' → is_Some (jobs db !! id).
Proof.
  induction reqs as [|[user r] reqs IH]; intros db id j' Hj'; [by eexists|].
  destruct (IH _ _ _ Hj') as [j1 Hj1]. by eapply route_lookup_Some_inv.
Qed.

(** What every [job_step] keeps, every sequence of routed requests keeps. *)
Lemma run_routes_invariant (P : Job → Prop) :
  (∀ db j op j', job_step db j op j' → P j → P j') →
  ∀ reqs db id j j',
    jobs db !! id = Some j → jobs (run_routes reqs db) !! id = Some j' →
    P j → P j'.
Proof.
  intros Hstep. induction reqs as [|[user r] reqs IH]; intros db id j j' Hj Hj' HP.
  - simpl in Hj'. by assert (j' = j) as -> by congruence.
  - destruct (run_routes_lookup_Some_inv reqs _ _ _ Hj') as [j1 Hj1].
    simpl in Hj1.
    destruct (route_job_step _ _ _ _ _ _ Hj Hj1) as [Hs _].
    eapply IH; eauto.
Qed.

Lemma job_step_prefix db j op j' :
  job_step db j op j' → statusHistory j `prefix_of` statusHistory j'.
Proof.
  intros Hstep.
  destruct (job_step_history _ _ _ _ Hstep) as [[_ ->] | (e & -> & _)];
    [done | by apply prefix_app_r].
Qed.


Lemma job_step_staffed db j op j' :
  job_step db j op j' → staffed j → staffed j'.
Proof.
  unfold staffed. intros Hstep Hok Hin.
  destruct Hstep as [ ?
         | jobId T user note now errors w Hw
         | jobId technicianId user note now errors u Hs Hu
         | jobId technicianId user note now errors e Hs Hfrom Hto Hby
         | jobId body errors Hs ].
  - auto.
  - destruct (transition_prepare_inr _ _ _ _ _ _ Hw) as (Hv & _ & Hst & _).
    destruct (transition_prepare_checks _ _ _ _ _ _ Hw) as [_ Hassigned].
    destruct (transition_prepare_frame _ _ _ _ _ _ j Hw) as [_ Ha].
    rewrite Ha. simpl in Hin. rewrite Hst in Hin. simpl in Hin.
    apply validateTransition_None in Hv.
    mem_cases; injection Hv as Hcur Hnew Hrole; subst T; try discriminate;
      try (rewrite Hassigned by done; by eexists);
      apply Hok; rewrite Hcur; repeat constructor.
  - destruct (assign_prepare_inr _ _ _ _ _ _ Hu) as (Hst & _).
    simpl in Hin. rewrite Hst in Hin. simpl in Hin. mem_cases; discriminate.
  - simpl in Hin. mem_cases; discriminate.
  - simpl in *. auto.
Qed.


Lemma legal_record_transition s t role :
  validateTransition s t role = None →
  legal_record {| fromStatus := Some s; toStatus := t; changedBy := 0;
                  changedAt := 0; notes := EmptyString |} = true.
Proof.
  intros Hv. apply validateTransition_None in Hv.
  mem_cases; injection Hv as -> -> ->; reflexivity.
Qed.

Lemma legal_record_ext e e' :
  fromStatus e = fromStatus e' → toStatus e = toStatus e' →
  legal_record e = legal_record e'.
Proof. unfold legal_record. by intros -> ->. Qed.

Lemma job_step_legal db j op j' :
  job_step db j op j' →
  Forall (λ e, legal_record e = true) (statusHistory j) →
  Forall (λ e, legal_record e = true) (statusHistory j').
Proof.
  intros Hstep Hok.
  destruct Hstep as [ ?
         | jobId T user note now errors w Hw
         | jobId technicianId user note now errors u Hs Hu
         | jobId technicianId user note now errors e Hs Hfrom Hto Hby
         | jobId body errors Hs ].
  - done.
  - destruct (transition_prepare_inr _ _ _ _ _ _ Hw)
      as (Hv & _ & _ & Hh & _ & _ & _ & _ & e & He & Hfrom & Hto & _).
    simpl. rewrite Hh, He. simpl. apply Forall_app. split; [done|].
    constructor; [|constructor].
    rewrite <- (legal_record_transition _ _ _ Hv).
    by apply legal_record_ext.
  - destruct (assign_prepare_inr _ _ _ _ _ _ Hu)
      as (_ & Hh & _ & _ & _ & _ & e & He & Hfrom & Hto).
    simpl. rewrite Hh, He. simpl. apply Forall_app. split; [done|].
    constructor; [|constructor].
    unfold legal_record. rewrite Hfrom, Hto. reflexivity.
  - simpl. apply Forall_app. split; [done|]. constructor; [|constructor].
    unfold legal_record. rewrite Hfrom, Hto. simpl.
    unfold includes. rewrite (bool_decide_eq_true_2 _ Hs).
    by rewrite orb_true_r.
  - done.
Qed.





(** *** Notes of a dispatch *)

Lemma trim_start_empty s : trim_start s = EmptyString ↔ all_space s = true.
Proof.
  induction s as [|a s IH]; simpl; [done|].
  destruct (is_space a); simpl; [done|]. split; discriminate.
Qed.

Lemma all_space_trim_start s : all_space (trim_start s) = all_space s.
Proof.
  induction s as [|a s IH]; simpl; [done|].
  destruct (is_space a) eqn:Ha; simpl; [done|]. by rewrite Ha.
Qed.

Lemma all_space_rev_string s : ∀ acc,
  all_space (rev_string acc s) = all_space acc && all_space s.
Proof.
  induction s as [|a s IH]; intros acc; simpl.
  - by rewrite andb_true_r.
  - rewrite IH. simpl. by destruct (is_space a), (all_space acc), (all_space s).
Qed.

Lemma rev_string_empty s : ∀ acc,
  rev_string acc s = EmptyString ↔ acc = EmptyString ∧ s = EmptyString.
Proof.
  induction s as [|a s IH]; intros acc; simpl.
  - split; [by intros -> | by intros [-> _]].
  - rewrite IH. split; [by intros [[=] _] | by intros [_ [=]]].
Qed.

Lemma trim_empty s : trim s = EmptyString ↔ all_space s = true.
Proof.
  unfold trim. rewrite rev_string_empty, trim_start_empty.
  rewrite all_space_rev_string, all_space_trim_start. simpl.
  split; [by intros [_ ?] | done].
Qed.

Lemma blank_spec note :
  blank note = true
  ↔ match note with None => True | Some s => all_space s = true end.
Proof.
  destruct note as [s|]; simpl; [|done].
  rewrite bool_decide_eq_true. apply trim_empty.
Qed.



(** *** Outcomes of the service calls *)

Lemma transition_prepare_inr_iff job T user note now :
  (∃ w, transition_prepare job T user note now = inr w)
  ↔ validateTransition (status job) T (user_role user) = None
    ∧ (T = DISPATCHED → blank note = false)
    ∧ (user_role user = TECHNICIAN →
       assignedTechnician job = Some (user_id user)).
Proof.
  split.
  - intros [w Hw]. split; [by apply transition_prepare_inr in Hw as (? & _)|].
    by eapply transition_prepare_checks.
  - intros (Hv & Hd & Ht). unfold transition_prepare. rewrite Hv.
    destruct (bool_decide (T = DISPATCHED)) eqn:HD; simpl.
    + apply bool_decide_eq_true in HD. rewrite (Hd HD). simpl.
      destruct (bool_decide (user_role user = TECHNICIAN)) eqn:HT; simpl;
        [|by eexists].
      apply bool_decide_eq_true in HT.
      rewrite (bool_decide_eq_true_2 _ (Ht HT)). simpl. by eexists.
    + destruct (bool_decide (user_role user = TECHNICIAN)) eqn:HT; simpl;
        [|by eexists].
      apply bool_decide_eq_true in HT.
      rewrite (bool_decide_eq_true_2 _ (Ht HT)). simpl. by eexists.
Qed.

(** What a call that returned a job has stored. *)
Lemma transitionStatus_data db jobId T user note now j' :
  snd (transitionStatus db jobId T user note now) = Data j' →
  jobs (fst (transitionStatus db jobId T user note now)) !! jobId = Some j'
  ∧ status j' = T.
Proof.
  destruct (transitionStatus_effect db jobId T user note now)
    as [[Hdb Hr] | (j & w & Hj & Hw & Hdb & Hr)].
  - intros Hres. by rewrite Hres in Hr.
  - rewrite Hr. intros [= <-]. rewrite Hdb. simpl. rewrite lookup_insert_eq.
    split; [done|].
    destruct (transition_prepare_inr _ _ _ _ _ _ Hw) as (_ & _ & Hst & _).
    simpl. by rewrite Hst.
Qed.

Lemma assignTechnician_data db jobId technicianId user note now j' :
  snd (assignTechnician db jobId technicianId user note now) = Data j' →
  jobs (fst (assignTechnician db jobId technicianId user note now)) !! jobId
  = Some j'
  ∧ status j' = ASSIGNED
  ∧ assignedTechnician j' = Some technicianId
  ∧ users (fst (assignTechnician db jobId technicianId user note now))
    = users db.
Proof.
  destruct (assignTechnician_effect db jobId technicianId user note now)
    as [[Hdb Hr] | (j & u & Hj & Hs & Hu & Hdb & Hr)].
  - intros Hres. by rewrite Hres in Hr.
  - rewrite Hr. intros [= <-]. rewrite Hdb. simpl. rewrite lookup_insert_eq.
    destruct (assign_prepare_inr _ _ _ _ _ _ Hu) as (Hst & _ & Ha & _).
    split_conj; try done; simpl; by rewrite ?Hst, ?Ha.
Qed.

Lemma assignTechnician_needs_confirmed db jobId technicianId user note now :
  (is_data (snd (assignTechnician db jobId technicianId user note now)) = true →
   ∃ job, jobs db !! jobId = Some job ∧ status job = CONFIRMED)
  ∧ (is_data (snd (assignTechnician db jobId technicianId user note now)) = false →
     fst (assignTechnician db jobId technicianId user note now) = db).
Proof.
  destruct (assignTechnician_effect db jobId technicianId user note now)
    as [[Hdb Hr] | (j & u & Hj & Hs & Hu & Hdb & Hr)].
  - rewrite Hr. by split.
  - rewrite Hr. split; [eauto|done].
Qed.



(** X10: sending the request that just went through a second time, by
    whichever user, is refused with the 400 "Job is already in this status"
    and writes nothing. *)
Theorem repeated_transition_is_refused (db : Store) (jobId : ObjectId)
    (T : Status) (user : User) (note : option string) (now : Date) (j' : Job)
    (user2 : User) (note2 : option string) (now2 : Date) :
  snd (transitionStatus db jobId T user note now) = Data j' →
  transitionStatus (fst (transitionStatus db jobId T user note now)) jobId T
    user2 note2 now2
  = (fst (transitionStatus db jobId T user note now), Error msg_already 400).
Proof.
  intros Hres.
  destruct (transitionStatus_data _ _ _ _ _ _ _ Hres) as (Hj' & Hst).
  unfold transitionStatus at 1. rewrite Hj'.
  unfold transition_prepare, validateTransition. rewrite Hst.
  by rewrite decide_True.
Qed.

Lemma repeated_transition_is_refused_witness :
  transitionStatus db_confirmed 0 CONFIRMED admin None 2100
  = (db_confirmed, Error "Job is already in this status" 400).
Proof.
  assert (E : fst (transitionStatus db_tentative 0 CONFIRMED admin None 2000)
              = db_confirmed) by (vm_compute; reflexivity).
  rewrite <- E.
  apply (repeated_transition_is_refused db_tentative 0 CONFIRMED admin None 2000
           (job_of db_confirmed) admin None 2100).
  vm_compute. reflexivity.
Defined.

(** X11: the outcomes of [assignTechnician], in the order of its checks: an
    unknown technician id gives 404 "Technician not found"; a user who is
    not a TECHNICIAN gives 400 "User is not a technician"; a caller who is
    not an ADMIN gives the 400 of [validateTransition]; and the job is
    returned exactly when, past these, it exists and is CONFIRMED.  The
    returned job is the stored one, ASSIGNED to that technician, with one
    more record from CONFIRMED to ASSIGNED by the caller; every error leaves
    the collection as it was. *)
Theorem assignTechnician_outcome (db : Store) (jobId technicianId : ObjectId)
    (user : User) (note : option string) (now : Date) :
  (users db !! technicianId = None →
   assignTechnician db jobId technicianId user note now
   = (db, Error "Technician not found" 404))
  ∧ (∀ t, users db !! technicianId = Some t → user_role t ≠ TECHNICIAN →
       assignTechnician db jobId technicianId user note now
       = (db, Error "User is not a technician" 400))
  ∧ (∀ t, users db !! technicianId = Some t → user_role t = TECHNICIAN →
       user_role user ≠ ADMIN →
       assignTechnician db jobId technicianId user note now
       = (db, Error (msg_role (user_role user) CONFIRMED ASSIGNED [ADMIN]) 400))
  ∧ (is_data (snd (assignTechnician db jobId technicianId user note now)) = true
     ↔ (∃ t, users db !! technicianId = Some t ∧ user_role t = TECHNICIAN)
       ∧ user_role user = ADMIN
       ∧ ∃ job, jobs db !! jobId = Some job ∧ status job = CONFIRMED)
  ∧ (∀ j', snd (assignTechnician db jobId technicianId user note now) = Data j' →
       jobs (fst (assignTechnician db jobId technicianId user note now)) !! jobId
       = Some j'
       ∧ status j' = ASSIGNED
       ∧ assignedTechnician j' = Some technicianId
       ∧ ∃ job e, jobs db !! jobId = Some job
                  ∧ statusHistory j' = (statusHistory job ++ [e])%list
                  ∧ fromStatus e = Some CONFIRMED ∧ toStatus e = ASSIGNED
                  ∧ details j' = details job)
  ∧ (is_data (snd (assignTechnician db jobId technicianId user note now)) = false →
     fst (assignTechnician db jobId technicianId user note now) = db).
Proof.
  split; [|split; [|split]].
  - intros Hn. unfold assignTechnician, assign_prepare. by rewrite Hn.
  - intros t Ht Hr. unfold assignTechnician, assign_prepare. rewrite Ht.
    by rewrite (bool_decide_eq_false_2 _ Hr).
  - intros t Ht Hr Hu. unfold assignTechnician, assign_prepare. rewrite Ht.
    rewrite (bool_decide_eq_true_2 _ Hr). simpl.
    by destruct (user_role user).
  - destruct (assignTechnician_effect db jobId technicianId user note now)
      as [[Hdb Hr] | (j & u & Hj & Hs & Hu & Hdb & Hr)].
    + rewrite Hdb, Hr. split; [|split; [|done]].
      * split; [done|]. intros ((t & Ht & Hrt) & Hadmin & job & Hj & Hs).
        revert Hr. unfold assignTechnician, assign_prepare, findOneAndUpdate.
        rewrite Ht, (bool_decide_eq_true_2 _ Hrt), Hadmin. simpl.
        rewrite Hj. by rewrite decide_True.
      * intros j' Hres. by rewrite Hres in Hr.
    + rewrite Hdb, Hr. split; [|split; [|done]].
      * split; [|done]. intros _.
        destruct (assign_prepare_checks _ _ _ _ _ _ Hu) as (Ht & _ & Hadmin).
        eauto 10.
      * intros j' [= <-]. simpl. rewrite lookup_insert_eq. split; [done|].
        destruct (assign_prepare_inr _ _ _ _ _ _ Hu)
          as (Hst & Hh & Ha & _ & _ & _ & e & He & Hfrom & Hto).
        destruct (assign_prepare_frame _ _ _ _ _ _ j Hu) as (Hd & _).
        split; [simpl; by rewrite Hst|]. split; [simpl; by rewrite Ha|].
        exists j, e. split; [done|]. split; [simpl; by rewrite Hh, He|]. done.
Qed.

Lemma assignTechnician_outcome_witness :
  assignTechnician db_confirmed 0 2 admin None 3000
  = (db_confirmed, Error "User is not a technician" 400)
  ∧ assignTechnician db_confirmed 0 4 manager None 3000
    = (db_confirmed,
       Error "Role OFFICE_MANAGER cannot move job from CONFIRMED to ASSIGNED. Allowed: ADMIN"
         400)
  ∧ is_data (snd (assignTechnician db_confirmed 0 4 admin None 3000)) = true.
Proof.
  destruct (assignTechnician_outcome db_confirmed 0 2 admin None 3000)
    as (_ & H1 & _).
  destruct (assignTechnician_outcome db_confirmed 0 4 manager None 3000)
    as (_ & _ & H2 & _).
  destruct (assignTechnician_outcome db_confirmed 0 4 admin None 3000)
    as (_ & _ & _ & [_ H3] & _).
  split; [|split].
  - apply (H1 manager); [vm_compute; reflexivity | discriminate].
  - apply (H2 tech1); [vm_compute; reflexivity | reflexivity | discriminate].
  - apply H3. split; [exists tech1; split; [vm_compute|]; reflexivity|].
    split; [reflexivity|]. exists (job_of db_confirmed).
    split; vm_compute; reflexivity.
Defined.

(** X12: a job is assigned through [assignTechnician] once: after a call that
    went through, every further call for the job, for whichever technician
    and by whichever caller, returns an error, writes nothing, and leaves the
    first technician assigned; past the checks on the technician and the
    caller the error names the status ASSIGNED. *)
Theorem second_assignment_is_refused (db : Store) (jobId technicianId : ObjectId)
    (user : User) (note : option string) (now : Date) (j' : Job)
    (technicianId2 : ObjectId) (user2 : User) (note2 : option string)
    (now2 : Date) :
  snd (assignTechnician db jobId technicianId user note now) = Data j' →
  let db1 := fst (assignTechnician db jobId technicianId user note now) in
  fst (assignTechnician db1 jobId technicianId2 user2 note2 now2) = db1
  ∧ is_data (snd (assignTechnician db1 jobId technicianId2 user2 note2 now2))
    = false
  ∧ assignedTechnician <$> jobs db1 !! jobId = Some (Some technicianId)
  ∧ ((∃ t, users db !! technicianId2 = Some t ∧ user_role t = TECHNICIAN) →
     user_role user2 = ADMIN →
     snd (assignTechnician db1 jobId technicianId2 user2 note2 now2)
     = Error "Job must be CONFIRMED to assign. Current status: ASSIGNED" 400).
Proof.
  intros Hres db1.
  destruct (assignTechnician_data _ _ _ _ _ _ _ Hres)
    as (Hj' & Hst & Ha & Husers).
  fold db1 in Hj', Husers.
  destruct (assignTechnician_needs_confirmed db1 jobId technicianId2 user2
              note2 now2) as [Hneeds Hkeep].
  assert (Hfail : is_data (snd (assignTechnician db1 jobId technicianId2 user2
                                  note2 now2)) = false).
  { destruct (is_data _); [|done].
    destruct (Hneeds eq_refl) as (job & Hj & Hs). congruence. }
  split; [by apply Hkeep|]. split; [done|].
  split; [by rewrite Hj', <- Ha|].
  intros (t & Ht & Hrt) Hadmin. rewrite <- Husers in Ht.
  unfold assignTechnician, assign_prepare, findOneAndUpdate, assign_diagnose.
  rewrite Ht, (bool_decide_eq_true_2 _ Hrt), Hadmin. simpl.
  rewrite Hj'. rewrite decide_False by congruence. simpl.
  rewrite Hj'. unfold msg_must_be_confirmed. by rewrite Hst.
Qed.

Lemma second_assignment_is_refused_witness :
  assignTechnician db_assigned 0 5 admin None 3100
  = (db_assigned,
     Error "Job must be CONFIRMED to assign. Current status: ASSIGNED" 400).
Proof.
  assert (E : fst (assignTechnician db_confirmed 0 4 admin None 3000)
              = db_assigned) by (vm_compute; reflexivity).
  destruct (second_assignment_is_refused db_confirmed 0 4 admin None 3000
              (job_of db_assigned) 5 admin None 3100) as (Hdb & _ & _ & Herr).
  - vm_compute. reflexivity.
  - rewrite E in Hdb, Herr.
    rewrite (surjective_pairing (assignTechnician db_assigned 0 5 admin None 3100)).
    rewrite Hdb, Herr; [done| |reflexivity].
    exists tech2. split; [vm_compute|]; reflexivity.
Defined.

(** *** Creating and deleting *)



(** X14: the delete handler removes the job it is asked for when that job is
    not BILLED, and nothing else; afterwards the job cannot be opened, its
    history cannot be read, a transition answers 404 "Job not found", and no
    sequence of requests through the routes brings the id back. *)
Theorem deleted_job_is_gone (db : Store) (jobId : ObjectId) (job : Job) :
  jobs db !! jobId = Some job →
  status job ≠ BILLED →
  let db' := fst (delete_handler db jobId) in
  snd (delete_handler db jobId)
  = SendMessage 200 ("Job " +:+ quote +:+ title job +:+ quote +:+ " deleted")
  ∧ jobs db' !! jobId = None
  ∧ (∀ id, id ≠ jobId → jobs db' !! id = jobs db !! id)
  ∧ users db' = users db
  ∧ (∀ user, get_handler db' jobId user = SendError 404 msg_not_found)
  ∧ history_handler db' jobId = HistoryError 404 msg_not_found
  ∧ (∀ T user note now,
       transitionStatus db' jobId T user note now
       = (db', Error msg_not_found 404))
  ∧ (∀ reqs, jobs (run_routes reqs db') !! jobId = None).
Proof.
  intros Hj Hs db'.
  assert (Hdel : delete_handler db jobId
                 = (with_jobs db (delete jobId (jobs db)),
                    SendMessage 200
                      ("Job " +:+ quote +:+ title job +:+ quote
                       +:+ " deleted"))).
  { unfold delete_handler. rewrite Hj. by rewrite decide_False. }
  unfold db'. rewrite Hdel. simpl.
  assert (Hgone : delete jobId (jobs db) !! jobId = None)
    by apply lookup_delete_eq.
  split; [done|]. split; [done|].
  split; [by intros id Hne; rewrite lookup_delete_ne|]. split; [done|].
  split; [intros user; unfold get_handler; simpl; by rewrite Hgone|].
  split; [unfold history_handler; simpl; by rewrite Hgone|].
  split; [intros; unfold transitionStatus; simpl; by rewrite Hgone|].
  intros reqs.
  destruct (jobs (run_routes reqs _) !! jobId) as [j'|] eqn:Hj'; [|done].
  apply run_routes_lookup_Some_inv in Hj' as [j0 Hj0]. simpl in Hj0.
  congruence.
Qed.

Lemma deleted_job_is_gone_witness :
  jobs (run_routes life_reqs (fst (delete_handler db_tentative 0))) !! 0 = None
  ∧ get_handler (fst (delete_handler db_tentative 0)) 0 admin
    = SendError 404 "Job not found".
Proof.
  destruct (deleted_job_is_gone db_tentative 0 (job_of db_tentative))
    as (_ & _ & _ & _ & Hget & _ & _ & Hrun).
  - vm_compute. reflexivity.
  - intros E. vm_compute in E. discriminate.
  - split; [apply Hrun | apply Hget].
Defined.



Lemma filter_all {A} (P : A → Prop) `{∀ x, Decision (P x)} (l : list A) :
  Forall P l → filter P l = l.
Proof.
  induction 1 as [|x l Hx _ IH]; [done|].
  by rewrite filter_cons_True, IH.
Qed.

Lemma elem_of_push_new l x k : k ∈ push_new l x ↔ k ∈ l ∨ k = x.
Proof.
  unfold push_new, includes. case_bool_decide.
  - split; [by left|]. by intros [?| ->].
  - rewrite elem_of_app, list_elem_of_singleton. done.
Qed.

Lemma elem_of_foldl_push_new xs : ∀ l k,
  k ∈ foldl push_new l xs ↔ k ∈ l ∨ k ∈ xs.
Proof.
  induction xs as [|x xs IH]; intros l k; simpl.
  - rewrite elem_of_nil. split; [by left | by intros [?|[]]].
  - rewrite IH, elem_of_push_new, elem_of_cons. tauto.
Qed.

Lemma NoDup_foldl_push_new xs : ∀ l, NoDup l → NoDup (foldl push_new l xs).
Proof.
  induction xs as [|x xs IH]; intros l Hl; simpl; [done|].
  apply IH. unfold push_new, includes. case_bool_decide; [done|].
  apply NoDup_app. split; [done|]. split; [|apply NoDup_singleton].
  intros k Hk Hx. apply list_elem_of_singleton in Hx. by subst.
Qed.

Lemma elem_of_role_users db active roles k :
  k ∈ role_users db active roles
  ↔ ∃ u, users db !! k = Some u ∧ user_role u ∈ roles ∧ active k = true.
Proof.
  unfold role_users. rewrite list_elem_of_fmap. split.
  - intros ([k' u] & -> & Hin). apply list_elem_of_filter in Hin as [[Hr Ha] Hin].
    apply elem_of_map_to_list in Hin. by exists u.
  - intros (u & Hu & Hr & Ha). exists (k, u). split; [done|].
    apply list_elem_of_filter. split; [done|]. by apply elem_of_map_to_list.
Qed.

Lemma elem_of_notification_recipients db active a k :
  k ∈ notification_recipients db active a
  ↔ (k ∈ na_recipientIds a
     ∨ ∃ u, users db !! k = Some u ∧ user_role u ∈ na_recipientRoles a
            ∧ active k = true)
    ∧ na_excludeUserId a ≠ Some k.
Proof.
  unfold notification_recipients.
  set (rs := match na_recipientRoles a with
             | [] => na_recipientIds a
             | _ :: _ => foldl push_new (na_recipientIds a)
                           (role_users db active (na_recipientRoles a))
             end).
  assert (Hrs : k ∈ rs
                ↔ k ∈ na_recipientIds a
                  ∨ ∃ u, users db !! k = Some u
                         ∧ user_role u ∈ na_recipientRoles a
                         ∧ active k = true).
  { unfold rs. destruct (na_recipientRoles a) as [|r0 roles] eqn:Hroles.
    - split; [by left|]. intros [?|(u & _ & Hin & _)]; [done|].
      by apply elem_of_nil in Hin.
    - by rewrite elem_of_foldl_push_new, elem_of_role_users. }
  destruct (na_excludeUserId a) as [x|].
  - rewrite list_elem_of_filter, Hrs. split.
    + intros [Hne H]. split; [done|]. congruence.
    + intros [H Hne]. split; [congruence|done].
  - rewrite Hrs. split; [by intros ? | by intros [? _]].
Qed.

(** X15: [createNotification] ends up with exactly the explicit recipients
    and the active users of the given roles, without the excluded user; each
    of them once when the explicit recipients are distinct.  It inserts one
    document per recipient, with the given type, message and job, and when
    the socket server is up the event it emits reaches the connections of
    exactly these users. *)
Theorem createNotification_recipients (db : Store) (active : ObjectId → bool)
    (a : NotifyArgs) :
  (∀ k, k ∈ notification_recipients db active a
        ↔ (k ∈ na_recipientIds a
           ∨ ∃ u, users db !! k = Some u ∧ user_role u ∈ na_recipientRoles a
                  ∧ active k = true)
          ∧ na_excludeUserId a ≠ Some k)
  ∧ (NoDup (na_recipientIds a) → NoDup (notification_recipients db active a))
  ∧ (∀ io,
       fst (createNotification io db active a)
       = (λ k, {| n_recipient := k; n_type := na_type a;
                  n_message := na_message a; n_job := na_jobId a |})
           <$> notification_recipients db active a)
  ∧ (∀ uid role,
       match snd (createNotification true db active a) with
       | Some e => receives e uid role = true
       | None => False
       end
       ↔ uid ∈ notification_recipients db active a)
  ∧ snd (createNotification false db active a) = None.
Proof.
  split; [intros; apply elem_of_notification_recipients|].
  split.
  { intros Hnd. unfold notification_recipients.
    assert (NoDup (match na_recipientRoles a with
                   | [] => na_recipientIds a
                   | _ :: _ => foldl push_new (na_recipientIds a)
                                 (role_users db active (na_recipientRoles a))
                   end)).
    { destruct (na_recipientRoles a); [done|]. by apply NoDup_foldl_push_new. }
    destruct (na_excludeUserId a); [by apply NoDup_filter | done]. }
  split.
  { intros io. unfold createNotification.
    by destruct (notification_recipients db active a). }
  split.
  - intros uid role. unfold createNotification.
    destruct (notification_recipients db active a) as [|k0 ks] eqn:Hrec; simpl.
    { by rewrite elem_of_nil. }
    assert (Hfil : filter (λ id, na_excludeUserId a ≠ Some id) (k0 :: ks)
                   = k0 :: ks).
    { apply filter_all, Forall_forall. intros k Hk.
      rewrite <- Hrec in Hk.
      by apply elem_of_notification_recipients in Hk as [_ ?]. }
    unfold emitToUsers. simpl negb. cbv iota.
    rewrite Hfil. rewrite app_nil_r. simpl fmap.
    assert (Hrecv : ∀ e : Emission (string * string * option ObjectId),
              em_rooms e = UserRoom <$> (k0 :: ks) → em_except e = None →
              receives e uid role = true ↔ uid ∈ k0 :: ks).
    { intros e Hrooms Hex. unfold receives. rewrite Hrooms, Hex. simpl negb.
      rewrite andb_true_r. rewrite existsb_exists. split.
      - intros (room & Hin & Hinc). apply list_elem_of_In in Hin.
        apply list_elem_of_fmap in Hin as (k & -> & Hk).
        unfold includes, joined in Hinc. apply bool_decide_eq_true in Hinc.
        apply elem_of_cons in Hinc as [Hinc|Hinc]; [by injection Hinc as ->|].
        apply list_elem_of_singleton in Hinc. discriminate.
      - intros Hk. exists (UserRoom uid). split.
        + apply list_elem_of_In, list_elem_of_fmap. by exists uid.
        + unfold includes, joined. apply bool_decide_eq_true. by left. }
    destruct (na_excludeUserId a); by apply Hrecv.
  - unfold createNotification.
    by destruct (notification_recipients db active a).
Qed.

Lemma createNotification_recipients_witness :
  NoDup (notification_recipients db_empty all_active sample_args)
  ∧ 2 ∈ notification_recipients db_empty all_active sample_args
  ∧ (3 ∉ notification_recipients db_empty all_active sample_args)
  ∧ length (fst (createNotification true db_empty all_active sample_args)) = 3.
Proof.
  destruct (createNotification_recipients db_empty all_active sample_args)
    as (Hin & Hnd & Hdocs & _).
  split; [apply Hnd; vm_compute; repeat constructor; by intros ?%elem_of_nil|].
  split; [apply Hin; split; [|discriminate]; right; exists manager;
          split_conj; [vm_compute; reflexivity | repeat constructor | done]|].
  split; [intros H; apply Hin in H as [_ H]; by apply H|].
  rewrite Hdocs, length_fmap. vm_compute. reflexivity.
Defined.

Lemma receives_spec {D} (e : Emission D) uid role :
  receives e uid role = true
  ↔ (UserRoom uid ∈ em_rooms e ∨ RoleRoom role ∈ em_rooms e)
    ∧ em_except e ≠ Some (UserRoom uid)
    ∧ em_except e ≠ Some (RoleRoom role).
Proof.
  unfold receives. rewrite andb_true_iff, negb_true_iff, existsb_exists.
  assert (Hj : ∀ x, includes (joined uid role) x = true
                    ↔ x = UserRoom uid ∨ x = RoleRoom role).
  { intros x. unfold includes, joined. rewrite bool_decide_eq_true.
    by rewrite elem_of_cons, list_elem_of_singleton. }
  split.
  - intros [(x & Hin%list_elem_of_In & Hx%Hj) Hex]. split.
    + destruct Hx as [-> | ->]; auto.
    + destruct (em_except e) as [x'|]; [|done].
      split; intros [= ->]; apply not_true_iff_false in Hex; apply Hex, Hj; auto.
  - intros (Hin & He1 & He2). split.
    + destruct Hin as [Hin|Hin]; eexists; (split; [by apply list_elem_of_In|]);
        apply Hj; auto.
    + destruct (em_except e) as [x'|]; [|done].
      apply not_true_iff_false. intros [-> | ->]%Hj; congruence.
Qed.

(** X16: when the socket server is up and there is a room to emit to,
    [emitToUsers] reaches the connection of a user exactly when the user is
    among the recipient ids or has one of the recipient roles, and is not the
    excluded user; it emits nothing when no room is left or the server is not
    up. *)
Theorem emitToUsers_delivery {D : Type} (event : string) (data : D)
    (recipientIds : list ObjectId) (recipientRoles : list Role)
    (excludeUserId : option ObjectId) :
  emitToUsers false event data recipientIds recipientRoles excludeUserId = None
  ∧ match emitToUsers true event data recipientIds recipientRoles
            excludeUserId with
    | Some e =>
        em_event e = event ∧ em_data e = data
        ∧ ∀ uid role,
            receives e uid role = true
            ↔ (uid ∈ recipientIds ∨ role ∈ recipientRoles)
              ∧ excludeUserId ≠ Some uid
    | None =>
        recipientRoles = []
        ∧ ∀ uid, uid ∈ recipientIds → excludeUserId = Some uid
    end.
Proof.
  split; [done|]. unfold emitToUsers. simpl negb. cbv iota.
  set (ids := filter (λ id, excludeUserId ≠ Some id) recipientIds).
  assert (Hids : ∀ uid, UserRoom uid ∈ ((UserRoom <$> ids)
                                         ++ (RoleRoom <$> recipientRoles))%list
                        ↔ uid ∈ recipientIds ∧ excludeUserId ≠ Some uid).
  { intros uid. rewrite elem_of_app, !list_elem_of_fmap. split.
    - intros [(k & [= ->] & Hk) | (r & [=] & _)].
      unfold ids in Hk. by apply list_elem_of_filter in Hk as [? ?].
    - intros [Hin Hne]. left. exists uid. split; [done|].
      by apply list_elem_of_filter. }
  assert (Hroles : ∀ role, RoleRoom role ∈ ((UserRoom <$> ids)
                                            ++ (RoleRoom <$> recipientRoles))%list
                           ↔ role ∈ recipientRoles).
  { intros role. rewrite elem_of_app, !list_elem_of_fmap. split.
    - by intros [(k & [=] & _) | (r & [= ->] & Hr)].
    - intros Hr. right. by exists role. }
  destruct ((UserRoom <$> ids) ++ (RoleRoom <$> recipientRoles))%list
    as [|room rooms] eqn:Hrooms.
  - split.
    + destruct recipientRoles as [|r rs]; [done|].
      specialize (Hroles r). rewrite elem_of_nil in Hroles.
      exfalso. apply Hroles. by left.
    + intros uid Hin. destruct (decide (excludeUserId = Some uid)); [done|].
      specialize (Hids uid). rewrite elem_of_nil in Hids.
      exfalso. by apply Hids.
  - destruct excludeUserId as [x|]; [destruct recipientRoles as [|r0 rs] eqn:Hr|];
      (split; [done|]; split; [done|]); intros uid role;
      rewrite receives_spec; simpl; rewrite Hids, Hroles.
    + rewrite elem_of_nil. split; [intros [[[? ?]|[]] _]; auto | ].
      intros [[?|[]] ?]. auto.
    + split.
      * intros ([[? ?]|?] & Hne & _); (split; [auto|congruence]).
      * intros [Hin Hne]. split; [|split; [congruence|done]].
        destruct Hin; auto.
    + split.
      * intros ([[? ?]|?] & _); (split; [auto|done]).
      * intros [Hin _]. split; [|done]. destruct Hin; auto.
Qed.

Lemma emitToUsers_delivery_witness :
  ∃ e, emitToUsers true "notification" 0 [4; 3] [ADMIN] (Some 3) = Some e
       ∧ receives e 4 TECHNICIAN = true
       ∧ receives e 1 ADMIN = true
       ∧ receives e 3 OFFICE_MANAGER = false
       ∧ receives e 5 TECHNICIAN = false.
Proof.
  pose proof (emitToUsers_delivery "notification" 0 [4; 3] [ADMIN] (Some 3))
    as [_ H].
  destruct (emitToUsers true "notification" 0 [4; 3] [ADMIN] (Some 3))
    as [e|] eqn:He; [|vm_compute in He; discriminate].
  destruct H as (_ & _ & H). exists e. split; [done|].
  split; [apply H; split; [left; repeat constructor | discriminate]|].
  split; [apply H; split; [right; repeat constructor | discriminate]|].
  split; apply not_true_iff_false; intros [Hin Hne]%H; [done|].
  destruct Hin as [Hin|Hin]; mem_cases; discriminate.
Defined.

Lemma may_view_admin db job u : user_role u = ADMIN → may_view db job u = true.
Proof.
  intros Hr. unfold may_view. rewrite Hr. simpl. by rewrite andb_false_r.
Qed.

Lemma may_view_manager db job u :
  user_role u = OFFICE_MANAGER → status job ≠ TENTATIVE →
  may_view db job u = true.
Proof.
  intros Hr Hs. unfold may_view. rewrite Hr.
  by rewrite (bool_decide_eq_false_2 _ Hs).
Qed.

Lemma may_view_technician db job k u :
  users_keyed db → users db !! k = Some u →
  populated_technician db job = Some k →
  status job ∈ techNotifiedStatuses →
  may_view db job u = true.
Proof.
  intros Hkeyed Hu Hpop Hs. unfold may_view.
  rewrite (Hkeyed _ _ Hu), Hpop.
  rewrite (bool_decide_eq_true_2 (Some k = Some k)) by done.
  unfold techNotifiedStatuses in Hs.
  mem_cases; rewrite Hs; simpl; by rewrite orb_true_r.
Qed.

(** The notification of a request, route by route, with the job it is
    about and where that job is stored. *)
Lemma route_notification_cases user r db a job :
  route_notification user r db = Some (a, job) →
  jobs (seen_in user r db) !! req_jobId r = Some job
  ∧ match r with
    | PatchStatus jobId T _ _ _ =>
        a = status_notification db jobId T job user ∧ status job = T
    | PatchAssign jobId _ _ _ _ =>
        a = assign_notification db jobId job user ∧ status job = ASSIGNED
    | PatchReassign jobId technicianId _ _ _ =>
        (∃ before, a = reassign_notification db jobId technicianId before user)
        ∧ status job = ASSIGNED
    | PutJob jobId _ _ => a = put_notification db jobId job user
    | DeleteJob jobId => delete_notification db job user = Some a
    end.
Proof.
  unfold route_notification, seen_in.
  destruct (route_cases user r db) as [(roles & _ & _ & Hr) | [_ Hr]];
    rewrite Hr; [by destruct r|].
  destruct r as [jobId T note now errors
                |jobId technicianId note now errors
                |jobId technicianId note now errors
                |jobId body errors
                |jobId]; simpl.
  - unfold status_handler. destruct errors; [|done].
    pose proof (transitionStatus_data db jobId T user note now) as Hdata.
    destruct (transitionStatus db jobId T user note now) as [db' [d|e c]];
      simpl in *; [|done].
    intros [= <- <-]. destruct (Hdata d eq_refl) as (Hj & Hs). done.
  - unfold assign_handler. destruct errors; [|done].
    pose proof (assignTechnician_data db jobId technicianId user note now)
      as Hdata.
    destruct (assignTechnician db jobId technicianId user note now)
      as [db' [d|e c]]; simpl in *; [|done].
    intros [= <- <-]. destruct (Hdata d eq_refl) as (Hj & Hs & _). done.
  - destruct (reassign_handler_effect db jobId technicianId user note now errors)
      as [[Hdb Hfail] | (j0 & r & Hj0 & _ & _ & Hst & _ & _ & _ & _ & _ & _ & _
                         & Hdb & Hres)].
    + destruct (reassign_handler _ _ _ _ _ _ _) as [db' [c d m|?|?|?]];
        simpl in *; done.
    + rewrite Hdb, Hres, Hj0. intros [= <- <-]. simpl.
      rewrite lookup_insert_eq, Hst. split; [done|]. split; [eauto|done].
  - unfold put_handler. destruct errors; [|done].
    destruct (bool_decide _); [done|].
    unfold updateJobDetails, findByIdAndUpdate.
    destruct (jobs db !! jobId) as [j0|]; simpl; [|done].
    intros [= <- <-]. by rewrite lookup_insert_eq.
  - unfold delete_handler.
    destruct (jobs db !! jobId) as [j0|] eqn:Hj0; simpl; [|done].
    destruct (decide (status j0 = BILLED)); simpl; [done|].
    destruct (delete_notification db j0 user) eqn:Hn; [|done].
    by intros [= <- <-].
Qed.


Lemma users_keyed_db_empty : users_keyed db_empty.
Proof.
  intros k u H. unfold db_empty in H. simpl in H.
  repeat (rewrite lookup_insert in H; case_decide;
          [injection H as <-; by subst k|]).
  by rewrite lookup_empty in H.
Qed.


(** *** What a request leaves alone *)

Lemma exec_locality op db :
  (success (snd (exec op db)) = false → fst (exec op db) = db)
  ∧ (∀ id, match op with
           | Transition jobId _ _ _ _ _ | Assign jobId _ _ _ _ _
           | Reassign jobId _ _ _ _ _ | Edit jobId _ _ | Delete jobId =>
               id ≠ jobId
           end →
           jobs (fst (exec op db)) !! id = jobs db !! id).
Proof.
  destruct op as [jobId T user note now errors
                 |jobId technicianId user note now errors
                 |jobId technicianId user note now errors
                 |jobId body errors
                 |jobId]; simpl.
  - unfold status_handler. destruct errors; [|done].
    destruct (transitionStatus_effect db jobId T user note now)
      as [[Hdb _] | (j0 & w & _ & _ & Hdb & Hr)];
      destruct (transitionStatus _ _ _ _ _ _) as [db' [d|e c]];
      simpl in *; subst db'; try done.
    split; [done|]. intros id Hne. unfold with_jobs. simpl.
    by rewrite lookup_insert_ne.
  - unfold assign_handler. destruct errors; [|done].
    destruct (assignTechnician_effect db jobId technicianId user note now)
      as [[Hdb _] | (j0 & u & _ & _ & _ & Hdb & Hr)];
      destruct (assignTechnician _ _ _ _ _ _) as [db' [d|e c]];
      simpl in *; subst db'; try done.
    split; [done|]. intros id Hne. unfold with_jobs. simpl.
    by rewrite lookup_insert_ne.
  - destruct (reassign_handler_effect db jobId technicianId user note now errors)
      as [[Hdb Hf] | (j0 & r & _ & _ & _ & _ & _ & _ & _ & _ & _ & _ & _ & Hdb
                      & Hres)].
    + by rewrite Hdb.
    + rewrite Hdb, Hres. split; [done|]. intros id Hne. unfold with_jobs. simpl.
      by rewrite lookup_insert_ne.
  - unfold put_handler. destruct errors; [|done].
    destruct (bool_decide _); [done|].
    unfold updateJobDetails, findByIdAndUpdate.
    destruct (jobs db !! jobId); simpl; [|done].
    split; [done|]. intros id Hne. unfold with_jobs. simpl.
    by rewrite lookup_insert_ne.
  - unfold delete_handler. destruct (jobs db !! jobId); [|done].
    destruct (decide _); simpl; [done|].
    split; [done|]. intros id Hne. unfold with_jobs. simpl.
    by rewrite lookup_delete_ne.
Qed.

(** X18: a request through a route that is answered with an error (a
    refusal of [authorize], validation errors, 400, 403, 404, 409) has
    written nothing; and a request that goes through touches no job but the
    one it names, and no user. *)
Theorem requests_are_all_or_nothing_and_local (user : User) (r : Req)
    (db : Store) :
  (success (snd (route user r db)) = false → fst (route user r db) = db)
  ∧ (∀ id, id ≠ req_jobId r →
       jobs (fst (route user r db)) !! id = jobs db !! id)
  ∧ users (fst (route user r db)) = users db.
Proof.
  split; [|split; [|apply route_users]].
  - destruct (route_cases user r db) as [(roles & _ & _ & Hr) | [_ Hr]];
      rewrite Hr; [done|]. apply exec_locality.
  - intros id Hne.
    destruct (route_cases user r db) as [(roles & _ & _ & Hr) | [_ Hr]];
      rewrite Hr; [done|].
    apply exec_locality. by destruct r.
Qed.

Lemma requests_are_all_or_nothing_and_local_witness :
  fst (route tech2 (PatchStatus 0 IN_PROGRESS None 5000 []) db_dispatched)
  = db_dispatched
  ∧ fst (route manager (PatchStatus 0 DISPATCHED None 4000 []) db_assigned)
    = db_assigned.
Proof.
  split.
  - apply (requests_are_all_or_nothing_and_local tech2
             (PatchStatus 0 IN_PROGRESS None 5000 []) db_dispatched).
    vm_compute. reflexivity.
  - apply (requests_are_all_or_nothing_and_local manager
             (PatchStatus 0 DISPATCHED None 4000 []) db_assigned).
    vm_compute. reflexivity.
Defined.

Lemma apply_set_safeData_idem data j :
  apply_set (safeData data) (apply_set (safeData data) j)
  = apply_set (safeData data) j.
Proof.
  destruct data as [t d c p e a s st at_ cb sh ec ac ca ba n]. simpl.
  unfold apply_set. simpl.
  destruct t, d, c, p, e, a, s, ec, ac, ca, ba, n; reflexivity.
Qed.

